(** * The preminted module of the TVL backend

    A shallow embedding of
    [packages/backend/src/modules/tvl/modules/PremintedModule.ts]
    ([initPremintedModule] and [createIndexers]) together with the
    indexer cycles and the retry policy the specification describes for
    the classes that module instantiates. *)

From stdpp Require Import gmap strings list.
From Stdlib Require Import ZArith Lia Ascii.

Local Open Scope Z_scope.

(** ** Results of a call that may throw *)

Inductive Error :=
| AssertionError (message : string).

Inductive Completion (A : Type) :=
| Return (a : A)
| Throw (e : Error).
Arguments Return {A} a.
Arguments Throw {A} e.

Global Instance Completion_bind : MBind Completion := λ A B k c,
  match c with
  | Return a => k a
  | Throw e => Throw e
  end.

(** [assert(value, message)] of [@l2beat/shared-pure]: narrows an optional
    value or throws. *)
Definition assert {A : Type} (value : option A) (message : string) : Completion A :=
  match value with
  | Some a => Return a
  | None => Throw (AssertionError message)
  end.

(** ** Configuration *)

Record UnixTime := { toNumber : Z }.

(** Modelled from the spec: the declaration of the amount entries
    ([AmountConfigEntry], [PremintedEntry]) is imported from another
    package. An asset position "identifies a chain, an address or formula,
    a project, a position kind (native balance / token balance / preminted
    supply), an inclusive start timestamp, and an optional end timestamp". *)
Inductive PositionKind := nativeBalance | tokenBalance | preminted.

Global Instance PositionKind_eq_dec : EqDecision PositionKind.
Proof. solve_decision. Defined.

Record AmountConfigEntry := {
  a_type : PositionKind;
  a_chain : string;
  a_address : string;
  a_project : string;
  a_sinceTimestamp : UnixTime;
  a_untilTimestamp : option UnixTime;
}.

Global Instance UnixTime_eq_dec : EqDecision UnixTime.
Proof. solve_decision. Defined.

Global Instance AmountConfigEntry_eq_dec : EqDecision AmountConfigEntry.
Proof. solve_decision. Defined.

(** The collaborators the module only passes along: their classes live in
    other files, so their types stay abstract. *)
Class Collaborators := {
  Logger : Type;
  logger_tag : Logger → string → Logger;
  IndexerService : Type;
  SyncOptimizer : Type;
  CirculatingSupplyService : Type;
  ValueService : Type;
  Database : Type;
  MulticallConfig : Type;
  PriceConfigEntry : Type;
  BlockTimestampIndexer : Type;
  DescendantIndexer : Type;
}.

Section PremintedModule.
Context {C : Collaborators}.

Record ChainConfig := {
  providerUrl : string;
  providerCallsPerMinute : Z;
  multicallConfig : MulticallConfig;
}.

Record ChainTvlConfig := {
  cc_chain : string;
  cc_config : option ChainConfig;
}.

Record TvlConfig := {
  chains : list ChainTvlConfig;
  amounts : list AmountConfigEntry;
  maxTimestampsToAggregateAtOnce : Z;
}.

Record RpcClient := {
  rpc_url : string;
  rpc_callsPerMinute : Z;
  rpc_chain : string;
}.

Record Peripherals := {
  database : Database;
}.

(** [peripherals.getClient(RpcClient, options)]. *)
Definition getClient (peripherals : Peripherals)
    (url : string) (callsPerMinute : Z) (chain : string) : RpcClient :=
  {| rpc_url := url; rpc_callsPerMinute := callsPerMinute; rpc_chain := chain |}.

Record MulticallClient := {
  mc_rpcClient : RpcClient;
  mc_config : MulticallConfig;
}.

Record AmountService := {
  as_rpcClient : RpcClient;
  as_multicallClient : MulticallClient;
  as_logger : Logger;
}.

Record TvlDependencies := {
  logger : Logger;
  getIndexerService : IndexerService;
  getSyncOptimizer : SyncOptimizer;
  getCirculatingSupplyService : CirculatingSupplyService;
  getValueService : ValueService;
}.

Record ConfigMapping := {
  getPriceConfigFromAmountConfig : AmountConfigEntry → PriceConfigEntry;
}.

(** ** The indexers the module builds *)

Record PremintedIndexer := {
  pi_logger : Logger;
  pi_parents : list BlockTimestampIndexer;
  pi_indexerService : IndexerService;
  pi_configuration : AmountConfigEntry;
  pi_minHeight : Z;
  pi_amountService : AmountService;
  pi_circulatingSupplyService : CirculatingSupplyService;
  pi_syncOptimizer : SyncOptimizer;
  pi_db : Database;
}.

(** What a value indexer can name as a parent here. *)
Inductive ParentIndexer :=
| PriceParent (descendant : DescendantIndexer)
| DataParent (indexer : PremintedIndexer).

Record ValueIndexer := {
  vi_valueService : ValueService;
  vi_db : Database;
  vi_priceConfigs : list PriceConfigEntry;
  vi_amountConfigs : list AmountConfigEntry;
  vi_project : string;
  vi_dataSource : string;
  vi_syncOptimizer : SyncOptimizer;
  vi_parents : list ParentIndexer;
  vi_indexerService : IndexerService;
  vi_logger : Logger;
  vi_minHeight : Z;
  vi_maxHeight : option Z;
  vi_maxTimestampsToProcessAtOnce : Z;
}.

(** [ProjectId(value)] brands a string. *)
Definition ProjectId (value : string) : string := value.

(** The template literal [`${chain}_preminted_${preminted.address}`]. *)
Definition dataSourceOf (chain address : string) : string :=
  chain +:+ "_preminted_" +:+ address.

(** Whether a string has the separator the template literal puts between
    its parts. *)
Fixpoint hasUnderscore (s : string) : bool :=
  match s with
  | EmptyString => false
  | String c rest => if Ascii.eqb c "_"%char then true else hasUnderscore rest
  end.

Definition Indexers : Type := list PremintedIndexer * list ValueIndexer.

Definition assertionMessage : string :=
  "blockTimestampIndexer should be defined for enabled chain".

Section createIndexers.
Variables (config : TvlConfig) (peripherals : Peripherals)
  (dependencies : TvlDependencies) (configMapping : ConfigMapping)
  (descendantPriceIndexer : DescendantIndexer)
  (blockTimestampIndexers : option (gmap string BlockTimestampIndexer)).

(** [config.amounts.filter(a => a.chain === chain)
                  .filter(a => a.type === 'preminted')] *)
Definition premintedTokensOf (chain : string) : list AmountConfigEntry :=
  filter (λ a, a_type a = preminted)
    (filter (λ a, a_chain a = chain) (amounts config)).

Definition newPremintedIndexer (blockTimestampIndexer : BlockTimestampIndexer)
    (amountService : AmountService) (preminted : AmountConfigEntry) : PremintedIndexer :=
  {| pi_logger := logger dependencies;
     pi_parents := [blockTimestampIndexer];
     pi_indexerService := getIndexerService dependencies;
     pi_configuration := preminted;
     pi_minHeight := toNumber (a_sinceTimestamp preminted);
     pi_amountService := amountService;
     pi_circulatingSupplyService := getCirculatingSupplyService dependencies;
     pi_syncOptimizer := getSyncOptimizer dependencies;
     pi_db := database peripherals |}.

Definition newValueIndexer (chain : string) (indexer : PremintedIndexer)
    (preminted : AmountConfigEntry) : ValueIndexer :=
  {| vi_valueService := getValueService dependencies;
     vi_db := database peripherals;
     vi_priceConfigs := [getPriceConfigFromAmountConfig configMapping preminted];
     vi_amountConfigs := [preminted];
     vi_project := ProjectId (a_project preminted);
     vi_dataSource := dataSourceOf chain (a_address preminted);
     vi_syncOptimizer := getSyncOptimizer dependencies;
     vi_parents := [PriceParent descendantPriceIndexer; DataParent indexer];
     vi_indexerService := getIndexerService dependencies;
     vi_logger := logger dependencies;
     vi_minHeight := toNumber (a_sinceTimestamp preminted);
     vi_maxHeight := toNumber <$> a_untilTimestamp preminted;
     vi_maxTimestampsToProcessAtOnce := maxTimestampsToAggregateAtOnce config |}.

(** One turn of the inner loop: both arrays grow by one element. *)
Definition pushPair (chain : string) (blockTimestampIndexer : BlockTimestampIndexer)
    (amountService : AmountService) (acc : Indexers)
    (preminted : AmountConfigEntry) : Indexers :=
  let indexer := newPremintedIndexer blockTimestampIndexer amountService preminted in
  let valueIndexer := newValueIndexer chain indexer preminted in
  (acc.1 ++ [indexer], acc.2 ++ [valueIndexer]).

(** The outer loop over [config.chains], with the two arrays threaded
    through; [continue] is the recursive call on the remaining chains. *)
Fixpoint chainLoop (remaining : list ChainTvlConfig) (acc : Indexers)
    : Completion Indexers :=
  match remaining with
  | [] => Return acc
  | chainConfig :: rest =>
    let chain := cc_chain chainConfig in
    match cc_config chainConfig with
    | None => chainLoop rest acc
    | Some cfg =>
      let premintedTokens := premintedTokensOf chain in
      if decide (length premintedTokens = 0%nat) then chainLoop rest acc
      else
        let rpcClient :=
          getClient peripherals (providerUrl cfg) (providerCallsPerMinute cfg) chain in
        let amountService :=
          {| as_rpcClient := rpcClient;
             as_multicallClient :=
               {| mc_rpcClient := rpcClient; mc_config := multicallConfig cfg |};
             as_logger := logger_tag (logger dependencies) chain |} in
        blockTimestampIndexer ←
          assert (blockTimestampIndexers ≫= (λ m, m !! chain)) assertionMessage;
        chainLoop rest
          (foldl (pushPair chain blockTimestampIndexer amountService) acc premintedTokens)
    end
  end.

Definition createIndexers : Completion Indexers :=
  chainLoop (chains config) ([], []).

(** *** The sequence of inner-loop turns

    A turn is taken for every enabled chain, in the order of
    [config.chains], and for every preminted amount of that chain, in the
    order of [config.amounts]. *)
Definition Turn : Type := string * ChainConfig * AmountConfigEntry.

Definition turnsOf (chainConfig : ChainTvlConfig) : list Turn :=
  match cc_config chainConfig with
  | None => []
  | Some cfg =>
    (λ a, (cc_chain chainConfig, cfg, a)) <$> premintedTokensOf (cc_chain chainConfig)
  end.

Definition planOf (cs : list ChainTvlConfig) : list Turn := cs ≫= turnsOf.

Definition amountServiceOf (chain : string) (cfg : ChainConfig) : AmountService :=
  let rpcClient :=
    getClient peripherals (providerUrl cfg) (providerCallsPerMinute cfg) chain in
  {| as_rpcClient := rpcClient;
     as_multicallClient :=
       {| mc_rpcClient := rpcClient; mc_config := multicallConfig cfg |};
     as_logger := logger_tag (logger dependencies) chain |}.

(** The pair of indexers a turn constructs, when the chain has its
    block-timestamp indexer. *)
Definition build (t : Turn) : option (PremintedIndexer * ValueIndexer) :=
  let '(chain, cfg, a) := t in
  bti ← blockTimestampIndexers ≫= (λ m, m !! chain);
  let indexer := newPremintedIndexer bti (amountServiceOf chain cfg) a in
  Some (indexer, newValueIndexer chain indexer a).

(** A chain is enabled when [config.chains] lists it with a config. *)
Definition enabled (chain : string) : Prop :=
  ∃ cc, cc ∈ chains config ∧ cc_chain cc = chain ∧ is_Some (cc_config cc).

(** The amounts the module is about. *)
Definition premintedOnEnabledChain (a : AmountConfigEntry) : Prop :=
  a ∈ amounts config ∧ a_type a = preminted ∧ enabled (a_chain a).

(** The amounts [createIndexers] builds indexers for, in the order it
    meets them: chain after chain, skipping the chains without a config. *)
Definition plannedAmounts : list AmountConfigEntry :=
  chains config ≫= (λ chainConfig,
    match cc_config chainConfig with
    | Some _ => premintedTokensOf (cc_chain chainConfig)
    | None => []
    end).

(** ** The module and its [start] *)

(** The closure returned by [initPremintedModule], as the two arrays it
    captures. *)
Record PremintedModule := {
  dataIndexers : list PremintedIndexer;
  valueIndexers : list ValueIndexer;
}.

Definition initPremintedModule : Completion (option PremintedModule) :=
  created ← createIndexers;
  if decide (length created.1 = 0%nat) then Return None
  else Return (Some {| dataIndexers := created.1; valueIndexers := created.2 |}).

End createIndexers.

(** An indexer object of a module, named by the array that holds it and
    its position there. *)
Inductive IndexerRef :=
| DataRef (i : nat)
| ValueRef (j : nat).

Global Instance IndexerRef_eq_dec : EqDecision IndexerRef.
Proof. solve_decision. Defined.

(** What an observer sees of [await indexer.start()]: the call, and then
    the promise fulfilled or rejected. *)
Inductive Event :=
| StartCalled (r : IndexerRef)
| StartFulfilled (r : IndexerRef)
| StartRejected (r : IndexerRef).

Definition refOf (e : Event) : IndexerRef :=
  match e with
  | StartCalled r | StartFulfilled r | StartRejected r => r
  end.

(** [for (const x of xs) { await x.start() }]; [fulfils r] tells whether
    the promise of [r.start()] is fulfilled. The boolean result is false
    when the loop was left by a rejection. *)
Fixpoint startEach (fulfils : IndexerRef → bool) (refs : list IndexerRef)
    : list Event * bool :=
  match refs with
  | [] => ([], true)
  | r :: rest =>
    if fulfils r then
      let '(events, completed) := startEach fulfils rest in
      (StartCalled r :: StartFulfilled r :: events, completed)
    else ([StartCalled r; StartRejected r], false)
  end.

Definition refsOf {A : Type} (mk : nat → IndexerRef) (xs : list A) : list IndexerRef :=
  mk <$> seq 0 (length xs).

(** Every indexer of a module, the data indexers first. *)
Definition allRefs (m : PremintedModule) : list IndexerRef :=
  refsOf DataRef (dataIndexers m) ++ refsOf ValueRef (valueIndexers m).

(** The events of one awaited [start]. *)
Definition awaited (fulfils : IndexerRef → bool) (r : IndexerRef) : list Event :=
  [StartCalled r; if fulfils r then StartFulfilled r else StartRejected r].

Definition start (fulfils : IndexerRef → bool) (m : PremintedModule)
    : list Event * bool :=
  let '(events1, completed1) := startEach fulfils (refsOf DataRef (dataIndexers m)) in
  if completed1 then
    let '(events2, completed2) := startEach fulfils (refsOf ValueRef (valueIndexers m)) in
    (events1 ++ events2, completed2)
  else (events1, false).

End PremintedModule.

(** * The indexer cycles

    The classes [PremintedIndexer], [ValueIndexer], [BlockTimestampIndexer],
    [DescendantIndexer] and [RpcClient] are instantiated by the module but
    defined in other files. Their behaviour is embedded from sections 4.1,
    4.4 to 4.7 and 4.9 of the specification; what the module passes to
    their constructors (parents, minimum and maximum heights, the
    configuration) is read off the records built above. *)

Inductive Fault :=
| ProviderUnavailable
| ProviderProtocolError
| MissingUpstreamRecord.

(** What working on one timestamp can give. *)
Inductive Outcome :=
| Resolved (quantity : Z)
| NotYetAvailable
| Faulted (f : Fault).

(** Modelled from the spec: the safe bound of a cycle, "computed as the
    minimum of its own limits and all parents' cursors". [None] is the
    minimum of nothing: no bound. *)
Definition lowest (heights : list Z) : option Z :=
  foldr (λ h acc, Some (from_option (Z.min h) h acc)) None heights.

Definition capBy (limit bound : option Z) : option Z :=
  match limit, bound with
  | Some m, Some b => Some (Z.min m b)
  | Some m, None => Some m
  | None, _ => bound
  end.

Definition withinBound (bound : option Z) (t : Z) : bool :=
  match bound with
  | Some b => bool_decide (t ≤ b)
  | None => true
  end.

(** Modelled from the spec: one cycle of an indexer (section 4.5). It
    "processes timestamps strictly after its own cursor up to that bound,
    in increasing order, one batch at a time"; for each timestamp, "on
    success, persist a Raw Amount Record and advance cursor to that
    timestamp; on NotYetAvailable, stop the cycle without error; on any
    other failure, stop the cycle and report the failure without advancing
    the cursor". [width] is the batch width, [period] the distance between
    two timestamp boundaries, [store] the records keyed by timestamp. *)
Fixpoint cycle (period : positive) (work : Z → Outcome) (bound : option Z)
    (width : nat) (cursor : Z) (store : gmap Z Z)
    : Z * gmap Z Z * option Fault :=
  match width with
  | O => (cursor, store, None)
  | S width' =>
    let t := cursor + Z.pos period in
    if withinBound bound t then
      match work t with
      | Resolved quantity =>
        cycle period work bound width' t (<[t := quantity]> store)
      | NotYetAvailable => (cursor, store, None)
      | Faulted f => (cursor, store, Some f)
      end
    else (cursor, store, None)
  end.

Section Pipeline.
Context {C : Collaborators}.

(** The state of the four indexers one asset position involves: the
    block-timestamp indexer of its chain, the price indexer, its data
    indexer and its value indexer, with the records they own. *)
Record Pipeline := {
  blockCursor : Z;
  priceCursor : Z;
  dataCursor : Z;
  valueCursor : Z;
  rawAmounts : gmap Z Z;
  pricePoints : gmap Z Z;
  pricedValues : gmap Z Z;
  lastFault : option Fault;
}.

Variables (period : positive) (d : PremintedIndexer) (v : ValueIndexer).

(** The call [new PremintedIndexer({...})] passes no [maxHeight]. *)
Definition pi_maxHeight (indexer : PremintedIndexer) : option Z := None.

(** Modelled from the spec: section 4.5, the data indexer's safe bound is
    "min(own max height, parent Block-Timestamp Indexer's cursor,
    configuration's end timestamp if set)". *)
Definition dataSafeBound (s : Pipeline) : option Z :=
  capBy (toNumber <$> a_untilTimestamp (pi_configuration d))
    (capBy (pi_maxHeight d)
       (lowest ((λ _, blockCursor s) <$> pi_parents d))).

Definition cursorOfParent (s : Pipeline) (parent : ParentIndexer) : Z :=
  match parent with
  | PriceParent _ => priceCursor s
  | DataParent _ => dataCursor s
  end.

(** Modelled from the spec: section 4.7, the value indexer's "safe bound =
    min(both parents' cursors, own max height)". *)
Definition valueSafeBound (s : Pipeline) : option Z :=
  capBy (vi_maxHeight v) (lowest (cursorOfParent s <$> vi_parents v)).

(** Modelled from the spec: section 4.7, "look up the Raw Amount Record
    and the applicable Price/Rate Point; if either is missing [...] fail
    loudly (MissingUpstreamRecord) [...]. Otherwise compute value =
    quantity × conversion factor". *)
Definition valueWork (s : Pipeline) (t : Z) : Outcome :=
  match rawAmounts s !! t, pricePoints s !! t with
  | Some quantity, Some factor => Resolved (quantity * factor)
  | _, _ => Faulted MissingUpstreamRecord
  end.

(** What can happen to the pipeline: one of the four indexers takes a
    turn. The amount service's answers and the availability of the next
    price point come from outside. *)
Inductive Action :=
| BlockTimestampStep
| PriceStep (factor : option Z)
| DataCycle (width : nat) (resolveAmount : AmountConfigEntry → Z → Outcome)
| ValueCycle (width : nat).

(** Modelled from the spec: sections 4.4 (the block-timestamp indexer
    advances "one timestamp boundary at a time"), 4.6 (the price indexer's
    unit of work is whether "a price point [is] available for timestamp
    T"), 4.5 and 4.7. *)
Definition step (a : Action) (s : Pipeline) : Pipeline :=
  match a with
  | BlockTimestampStep =>
    {| blockCursor := blockCursor s + Z.pos period;
       priceCursor := priceCursor s; dataCursor := dataCursor s;
       valueCursor := valueCursor s; rawAmounts := rawAmounts s;
       pricePoints := pricePoints s; pricedValues := pricedValues s;
       lastFault := lastFault s |}
  | PriceStep None => s
  | PriceStep (Some factor) =>
    let t := priceCursor s + Z.pos period in
    {| blockCursor := blockCursor s;
       priceCursor := t; dataCursor := dataCursor s;
       valueCursor := valueCursor s; rawAmounts := rawAmounts s;
       pricePoints := <[t := factor]> (pricePoints s);
       pricedValues := pricedValues s; lastFault := lastFault s |}
  | DataCycle width resolveAmount =>
    let '(cursor, store, fault) :=
      cycle period (resolveAmount (pi_configuration d)) (dataSafeBound s)
        width (dataCursor s) (rawAmounts s) in
    {| blockCursor := blockCursor s;
       priceCursor := priceCursor s; dataCursor := cursor;
       valueCursor := valueCursor s; rawAmounts := store;
       pricePoints := pricePoints s; pricedValues := pricedValues s;
       lastFault := fault |}
  | ValueCycle width =>
    let '(cursor, store, fault) :=
      cycle period (valueWork s) (valueSafeBound s)
        width (valueCursor s) (pricedValues s) in
    {| blockCursor := blockCursor s;
       priceCursor := priceCursor s; dataCursor := dataCursor s;
       valueCursor := cursor; rawAmounts := rawAmounts s;
       pricePoints := pricePoints s; pricedValues := store;
       lastFault := fault |}
  end.

(** The pipeline after a sequence of turns, the first one first. *)
Definition run (actions : list Action) (s : Pipeline) : Pipeline :=
  foldl (λ s a, step a s) s actions.

(** Modelled from the spec: section 4.9, "load persisted cursors at
    startup (missing cursor ⇒ start at configured minimum height)". The
    two upstream indexers come with the cursors they have. *)
Definition startup (blockHeight priceHeight : Z)
    (persistedData persistedValue : option Z) : Pipeline :=
  {| blockCursor := blockHeight;
     priceCursor := priceHeight;
     dataCursor := default (pi_minHeight d) persistedData;
     valueCursor := default (vi_minHeight v) persistedValue;
     rawAmounts := ∅; pricePoints := ∅; pricedValues := ∅;
     lastFault := None |}.

(** The four indexers of the pipeline, and the cursor of each. *)
Inductive IndexerName := BlockTimestamp | Price | Data | Value.

Definition cursor (i : IndexerName) (s : Pipeline) : Z :=
  match i with
  | BlockTimestamp => blockCursor s
  | Price => priceCursor s
  | Data => dataCursor s
  | Value => valueCursor s
  end.

End Pipeline.

(** * The retry policy of the rate-limited chain client *)

Inductive NetworkFailure := Timeout | ConnectionReset | ServerError.

Inductive Reply :=
| Answer (payload : Z)
| Unreachable (failure : NetworkFailure)
| Malformed.

Record CallReport := {
  result : Fault + Z;
  attempts : nat;
  waits : list Z;
}.

(** Modelled from the spec: section 4.1, "network-level failures (timeout,
    connection reset, 5xx-equivalent) are retried with exponential backoff
    up to a bounded attempt count; after exhaustion the call fails with a
    ProviderUnavailable error [...]. Malformed responses fail immediately
    with ProviderProtocolError (not retried)". [provider n] is the
    provider's reply to the attempt numbered [n], [remaining] the attempts
    left, [delay] the next backoff. *)
Fixpoint retry (provider : nat → Reply) (remaining made : nat) (delay : Z)
    (waited : list Z) : CallReport :=
  match remaining with
  | O => {| result := inl ProviderUnavailable; attempts := made; waits := waited |}
  | S remaining' =>
    match provider made with
    | Answer payload =>
      {| result := inr payload; attempts := S made; waits := waited |}
    | Malformed =>
      {| result := inl ProviderProtocolError; attempts := S made; waits := waited |}
    | Unreachable _ =>
      match remaining' with
      | O => {| result := inl ProviderUnavailable; attempts := S made; waits := waited |}
      | S _ => retry provider remaining' (S made) (2 * delay) (waited ++ [delay])
      end
    end
  end.

Record RetryPolicy := {
  maxAttempts : nat;
  initialDelay : Z;
}.

Definition call (policy : RetryPolicy) (provider : nat → Reply) : CallReport :=
  retry provider (maxAttempts policy) 0 (initialDelay policy) [].

(** * A small configuration

    One enabled chain with two preminted positions, a disabled chain and
    an amount of another kind; used to run the definitions. *)

Module Example.

Definition units : Collaborators :=
  {| Logger := unit; logger_tag := λ l _, l; IndexerService := unit;
     SyncOptimizer := unit; CirculatingSupplyService := unit;
     ValueService := unit; Database := unit; MulticallConfig := unit;
     PriceConfigEntry := string; BlockTimestampIndexer := string;
     DescendantIndexer := unit |}.

#[local] Existing Instance units.

Definition provider : ChainConfig (C := units) :=
  {| providerUrl := "https://rpc.example"; providerCallsPerMinute := 60;
     multicallConfig := tt |}.

Definition ethereum : ChainTvlConfig (C := units) :=
  {| cc_chain := "ethereum"; cc_config := Some provider |}.

Definition arbitrum : ChainTvlConfig (C := units) :=
  {| cc_chain := "arbitrum"; cc_config := None |}.

Definition op : AmountConfigEntry :=
  {| a_type := preminted; a_chain := "ethereum"; a_address := "0xaa";
     a_project := "optimism"; a_sinceTimestamp := {| toNumber := 100 |};
     a_untilTimestamp := Some {| toNumber := 175 |} |}.

Definition strk : AmountConfigEntry :=
  {| a_type := preminted; a_chain := "ethereum"; a_address := "0xbb";
     a_project := "starknet"; a_sinceTimestamp := {| toNumber := 120 |};
     a_untilTimestamp := None |}.

Definition escrowed : AmountConfigEntry :=
  {| a_type := tokenBalance; a_chain := "ethereum"; a_address := "0xcc";
     a_project := "optimism"; a_sinceTimestamp := {| toNumber := 90 |};
     a_untilTimestamp := None |}.

Definition arb : AmountConfigEntry :=
  {| a_type := preminted; a_chain := "arbitrum"; a_address := "0xdd";
     a_project := "arbitrum"; a_sinceTimestamp := {| toNumber := 110 |};
     a_untilTimestamp := None |}.

Definition config : TvlConfig (C := units) :=
  {| chains := [arbitrum; ethereum]; amounts := [escrowed; op; arb; strk];
     maxTimestampsToAggregateAtOnce := 24 |}.

Definition peripherals : Peripherals (C := units) := {| database := tt |}.

Definition dependencies : TvlDependencies (C := units) :=
  {| logger := tt; getIndexerService := tt; getSyncOptimizer := tt;
     getCirculatingSupplyService := tt; getValueService := tt |}.

Definition configMapping : ConfigMapping (C := units) :=
  {| getPriceConfigFromAmountConfig := λ a, a_project a |}.

Definition blockTimestampIndexers : option (gmap string string) :=
  Some {[ "ethereum" := "block_timestamp_indexer::ethereum" ]}.

Definition created : Completion (Indexers (C := units)) :=
  createIndexers config peripherals dependencies configMapping tt blockTimestampIndexers.

Definition opData : PremintedIndexer (C := units) :=
  newPremintedIndexer peripherals dependencies "block_timestamp_indexer::ethereum"
    (amountServiceOf peripherals dependencies "ethereum" provider) op.

Definition opValue : ValueIndexer (C := units) :=
  newValueIndexer config peripherals dependencies configMapping tt "ethereum" opData op.

Definition strkData : PremintedIndexer (C := units) :=
  newPremintedIndexer peripherals dependencies "block_timestamp_indexer::ethereum"
    (amountServiceOf peripherals dependencies "ethereum" provider) strk.

Definition strkValue : ValueIndexer (C := units) :=
  newValueIndexer config peripherals dependencies configMapping tt "ethereum" strkData strk.

Definition module : PremintedModule (C := units) :=
  {| dataIndexers := [opData; strkData]; valueIndexers := [opValue; strkValue] |}.

(** A provider that always reports 1000 units, and the pipeline of the
    first position started afresh while the price indexer is at 40 and the
    block-timestamp indexer at 150. *)
Definition constantBalance : AmountConfigEntry → Z → Outcome :=
  λ _ _, Resolved 1000.

Definition freshStart : Pipeline := startup opData opValue 150 40 None None.

Definition turns : list Action :=
  [ValueCycle 10; BlockTimestampStep; DataCycle 10 constantBalance; ValueCycle 10].



(** The same position with the block-timestamp indexer at 200, past the
    position's end timestamp 175, and its data indexer five boundaries
    before the end timestamp, or at it. *)
Definition nearEnd : Pipeline := startup opData opValue 200 40 (Some 170) None.

Definition atEnd : Pipeline := startup opData opValue 200 40 (Some 175) None.

Definition moreTurns : list Action :=
  [BlockTimestampStep; DataCycle 10 constantBalance; PriceStep (Some 2);
   BlockTimestampStep; DataCycle 3 constantBalance].

(** A provider that is down, and one that recovers at the third attempt. *)
Definition down : nat → Reply := λ _, Unreachable Timeout.

Definition recovering : nat → Reply :=
  λ n, if decide (n < 2)%nat then Unreachable ServerError else Answer 7.

Definition policy : RetryPolicy := {| maxAttempts := 4; initialDelay := 100 |}.

(** [start] when the first data indexer's own [start] is rejected. *)
Definition firstRejects : IndexerRef → bool :=
  λ r, bool_decide (r ≠ DataRef 0).

(** Variants of the configuration: without what is not used, split in
    two, with the chains in the other order, and a larger map of
    block-timestamp indexers. *)
Definition configUsed : TvlConfig :=
  {| chains := [ethereum]; amounts := [op; arb; strk];
     maxTimestampsToAggregateAtOnce := 24 |}.

Definition configFirst : TvlConfig :=
  {| chains := [arbitrum]; amounts := amounts config;
     maxTimestampsToAggregateAtOnce := 24 |}.

Definition configSecond : TvlConfig :=
  {| chains := [ethereum]; amounts := amounts config;
     maxTimestampsToAggregateAtOnce := 24 |}.

Definition configSwapped : TvlConfig :=
  {| chains := [ethereum; arbitrum]; amounts := amounts config;
     maxTimestampsToAggregateAtOnce := 24 |}.

(** The chain listed twice, and the amount listed twice. *)
Definition configChainTwice : TvlConfig :=
  {| chains := [ethereum; ethereum]; amounts := [op];
     maxTimestampsToAggregateAtOnce := 24 |}.

Definition configAmountTwice : TvlConfig :=
  {| chains := [ethereum]; amounts := [op; op];
     maxTimestampsToAggregateAtOnce := 24 |}.

Definition moreBlockTimestampIndexers : option (gmap string string) :=
  Some {[ "ethereum" := "block_timestamp_indexer::ethereum";
          "arbitrum" := "block_timestamp_indexer::arbitrum" ]}.

End Example.

(** * Properties of [createIndexers] *)

Section createIndexers_facts.
Context {C : Collaborators}.
Variables (config : TvlConfig) (peripherals : Peripherals)
  (dependencies : TvlDependencies) (configMapping : ConfigMapping)
  (descendantPriceIndexer : DescendantIndexer)
  (blockTimestampIndexers : option (gmap string BlockTimestampIndexer)).

Abbreviation chainLoop :=
  (chainLoop config peripherals dependencies configMapping
     descendantPriceIndexer blockTimestampIndexers).
Abbreviation createIndexers :=
  (createIndexers config peripherals dependencies configMapping
     descendantPriceIndexer blockTimestampIndexers).
Abbreviation initPremintedModule :=
  (initPremintedModule config peripherals dependencies configMapping
     descendantPriceIndexer blockTimestampIndexers).
Abbreviation build :=
  (build config peripherals dependencies configMapping
     descendantPriceIndexer blockTimestampIndexers).
Abbreviation newPremintedIndexer := (newPremintedIndexer peripherals dependencies).
Abbreviation newValueIndexer :=
  (newValueIndexer config peripherals dependencies configMapping descendantPriceIndexer).
Abbreviation pushPair :=
  (pushPair config peripherals dependencies configMapping descendantPriceIndexer).
Abbreviation amountServiceOf := (amountServiceOf peripherals dependencies).
Abbreviation premintedTokensOf := (premintedTokensOf config).
Abbreviation turnsOf := (turnsOf config).
Abbreviation planOf := (planOf config).
Abbreviation enabled := (enabled config).
Abbreviation premintedOnEnabledChain := (premintedOnEnabledChain config).

Lemma mapM_option_app {A B : Type} (f : A → option B) (l1 l2 : list A) :
  mapM f (l1 ++ l2) = k1 ← mapM f l1; k2 ← mapM f l2; Some (k1 ++ k2).
Proof.
  induction l1 as [|x l1 IH]; simpl.
  - by destruct (mapM f l2).
  - destruct (f x) as [y|]; simpl; [|done].
    rewrite IH. destruct (mapM f l1) as [k1|]; simpl; [|done].
    by destruct (mapM f l2).
Qed.

Lemma foldl_pushPair chain bti svc (toks : list AmountConfigEntry) (acc : Indexers) :
  foldl (pushPair chain bti svc) acc toks =
  (acc.1 ++ (newPremintedIndexer bti svc <$> toks),
   acc.2 ++ ((λ a, newValueIndexer chain (newPremintedIndexer bti svc a) a) <$> toks)).
Proof.
  revert acc. induction toks as [|a toks IH]; intros [ds vs]; simpl.
  - by rewrite !app_nil_r.
  - rewrite IH. simpl. by rewrite <- !app_assoc.
Qed.

Lemma build_turnsOf_Some cc cfg bti :
  cc_config cc = Some cfg →
  blockTimestampIndexers ≫= (λ m, m !! cc_chain cc) = Some bti →
  mapM build (turnsOf cc) =
  Some ((λ a, let d := newPremintedIndexer bti (amountServiceOf (cc_chain cc) cfg) a in
              (d, newValueIndexer (cc_chain cc) d a)) <$> premintedTokensOf (cc_chain cc)).
Proof.
  intros Hcfg Hbti. unfold turnsOf. rewrite Hcfg.
  apply mapM_Some_2. apply Forall2_fmap, Forall_Forall2_diag, Forall_forall.
  intros a _. simpl. by rewrite Hbti.
Qed.

(** The loop does what its plan says: it returns the pairs built turn by
    turn, appended to what it was given, or throws the assertion's error
    when some turn finds no block-timestamp indexer. *)
Lemma chainLoop_plan (rest : list ChainTvlConfig) (acc : Indexers) :
  chainLoop rest acc =
  match mapM build (planOf rest) with
  | Some pairs => Return (acc.1 ++ pairs.*1, acc.2 ++ pairs.*2)
  | None => Throw (AssertionError assertionMessage)
  end.
Proof.
  revert acc. induction rest as [|cc rest IH]; intros acc.
  - simpl. destruct acc. by rewrite !app_nil_r.
  - change (planOf (cc :: rest)) with (turnsOf cc ++ planOf rest).
    rewrite mapM_option_app. simpl chainLoop. unfold turnsOf at 1.
    destruct (cc_config cc) as [cfg|] eqn:Hcfg.
    + case_decide as Hlen.
      * apply nil_length_inv in Hlen. rewrite Hlen. simpl.
        rewrite IH. by destruct (mapM _ _).
      * destruct (blockTimestampIndexers ≫= (λ m, m !! cc_chain cc)) as [bti|] eqn:Hbti.
        -- pose proof (build_turnsOf_Some _ _ _ Hcfg Hbti) as Hb.
           unfold turnsOf in Hb. rewrite Hcfg in Hb. rewrite Hb. simpl.
           rewrite IH, foldl_pushPair. simpl.
           destruct (mapM _ _) as [pairs|]; simpl; [|done].
           rewrite !fmap_app, <- !list_fmap_compose, !app_assoc. reflexivity.
        -- assert (mapM build ((λ a, (cc_chain cc, cfg, a)) <$>
                     premintedTokensOf (cc_chain cc)) = None) as ->; [|done].
           apply mapM_None.
           destruct (premintedTokensOf (cc_chain cc)) as [|a toks]; [done|].
           apply Exists_cons_hd. simpl. by rewrite Hbti.
    + simpl. rewrite IH. by destruct (mapM _ _).
Qed.

Lemma createIndexers_plan :
  createIndexers =
  match mapM build (planOf (chains config)) with
  | Some pairs => Return (pairs.*1, pairs.*2)
  | None => Throw (AssertionError assertionMessage)
  end.
Proof. unfold createIndexers. by rewrite chainLoop_plan. Qed.

Lemma elem_of_premintedTokensOf (a : AmountConfigEntry) (chain : string) :
  a ∈ premintedTokensOf chain ↔
  a ∈ amounts config ∧ a_chain a = chain ∧ a_type a = preminted.
Proof. unfold premintedTokensOf. rewrite !list_elem_of_filter. tauto. Qed.

Lemma elem_of_planOf (t : Turn) (cs : list ChainTvlConfig) :
  t ∈ planOf cs ↔
  ∃ cc cfg a, cc ∈ cs ∧ cc_config cc = Some cfg ∧
    a ∈ premintedTokensOf (cc_chain cc) ∧ t = (cc_chain cc, cfg, a).
Proof.
  unfold planOf. rewrite list_elem_of_bind. split.
  - intros (cc & Ht & Hcc). unfold turnsOf in Ht.
    destruct (cc_config cc) as [cfg|] eqn:Hcfg; [|by apply elem_of_nil in Ht].
    apply list_elem_of_fmap in Ht as (a & -> & Ha). eauto 10.
  - intros (cc & cfg & a & Hcc & Hcfg & Ha & ->). exists cc. split; [|done].
    unfold turnsOf. rewrite Hcfg. apply list_elem_of_fmap. eauto.
Qed.

Lemma createIndexers_pairs (ds : list PremintedIndexer) (vs : list ValueIndexer) :
  createIndexers = Return (ds, vs) →
  ∃ pairs, ds = pairs.*1 ∧ vs = pairs.*2 ∧
    Forall2 (λ t p, build t = Some p) (planOf (chains config)) pairs.
Proof.
  rewrite createIndexers_plan.
  destruct (mapM build (planOf (chains config))) as [pairs|] eqn:Hm; [|done].
  intros [= <- <-]. exists pairs. by apply mapM_Some_1 in Hm.
Qed.

(** Every position of the two arrays holds the pair of one turn: a data
    indexer and the value indexer constructed right after it, from the
    same preminted amount of an enabled chain. *)
Lemma created_at (ds : list PremintedIndexer) (vs : list ValueIndexer) (j : nat) :
  createIndexers = Return (ds, vs) →
  is_Some (ds !! j) ∨ is_Some (vs !! j) →
  ∃ cc cfg a bti,
    cc ∈ chains config ∧ cc_config cc = Some cfg ∧
    a ∈ amounts config ∧ a_chain a = cc_chain cc ∧ a_type a = preminted ∧
    blockTimestampIndexers ≫= (λ m, m !! a_chain a) = Some bti ∧
    ds !! j = Some (newPremintedIndexer bti (amountServiceOf (a_chain a) cfg) a) ∧
    vs !! j = Some (newValueIndexer (a_chain a)
                      (newPremintedIndexer bti (amountServiceOf (a_chain a) cfg) a) a).
Proof.
  intros (pairs & -> & -> & Hall)%createIndexers_pairs Hj.
  assert (is_Some (pairs !! j)) as [p Hp].
  { rewrite !list_lookup_fmap, !fmap_is_Some in Hj. tauto. }
  destruct (Forall2_lookup_r _ _ _ _ _ Hall Hp) as (t & Ht & Hb).
  apply list_elem_of_lookup_2, elem_of_planOf in Ht
    as (cc & cfg & a & Hcc & Hcfg & Ha & ->).
  apply elem_of_premintedTokensOf in Ha as (Ha & Hchain & Hty).
  simpl in Hb. rewrite <- Hchain in *.
  destruct (blockTimestampIndexers ≫= (λ m, m !! a_chain a)) as [bti|] eqn:Hbti;
    [|done].
  simpl in Hb. injection Hb as <-.
  exists cc, cfg, a, bti. rewrite !list_lookup_fmap, Hp. by repeat split.
Qed.

(** Chains listed once are told apart by their names. *)
Lemma chain_name_inj (cs : list ChainTvlConfig) (cc1 cc2 : ChainTvlConfig) :
  NoDup (cc_chain <$> cs) → cc1 ∈ cs → cc2 ∈ cs →
  cc_chain cc1 = cc_chain cc2 → cc1 = cc2.
Proof.
  induction cs as [|cc cs IH]; [by intros _ ?%elem_of_nil|].
  rewrite fmap_cons, NoDup_cons, !elem_of_cons.
  intros [Hfresh Hnd] [->|H1] [->|H2] Heq; try done.
  - destruct Hfresh. rewrite Heq. by apply list_elem_of_fmap_2.
  - destruct Hfresh. rewrite <- Heq. by apply list_elem_of_fmap_2.
  - by apply IH.
Qed.

Lemma enabled_of_turn (cc : ChainTvlConfig) (cfg : ChainConfig) (a : AmountConfigEntry) :
  cc ∈ chains config → cc_config cc = Some cfg → a_chain a = cc_chain cc →
  enabled (a_chain a).
Proof. intros Hcc Hcfg Hchain. exists cc. by rewrite Hcfg. Qed.

(** The data and value indexers of one position share a place in their
    arrays, and the value indexer names that data indexer as a parent. *)
Lemma value_parents (ds : list PremintedIndexer) (vs : list ValueIndexer)
    (j : nat) (v : ValueIndexer) :
  createIndexers = Return (ds, vs) → vs !! j = Some v →
  ∃ d, ds !! j = Some d ∧
    vi_parents v = [PriceParent descendantPriceIndexer; DataParent d] ∧
    vi_amountConfigs v = [pi_configuration d] ∧
    vi_minHeight v = pi_minHeight d ∧
    vi_maxHeight v = toNumber <$> a_untilTimestamp (pi_configuration d).
Proof.
  intros Hc Hv.
  destruct (created_at ds vs j Hc) as (cc & cfg & a & bti & _ & _ & _ & _ & _ & _ & Hd & Hv');
    [right; eauto|].
  rewrite Hv in Hv'. injection Hv' as ->. eauto 10.
Qed.

(** C4. Every data indexer that [createIndexers] returns has exactly one
    parent, the block-timestamp indexer registered for the chain of its
    configuration, and its minimum height is the configuration's
    [sinceTimestamp] as a number. *)
Theorem data_indexer_parent_and_min_height
    (ds : list PremintedIndexer) (vs : list ValueIndexer) (d : PremintedIndexer) :
  createIndexers = Return (ds, vs) → d ∈ ds →
  ∃ bti,
    blockTimestampIndexers ≫= (λ m, m !! a_chain (pi_configuration d)) = Some bti ∧
    pi_parents d = [bti] ∧
    pi_minHeight d = toNumber (a_sinceTimestamp (pi_configuration d)) ∧
    a_type (pi_configuration d) = preminted ∧
    enabled (a_chain (pi_configuration d)).
Proof.
  intros Hc (j & Hj)%list_elem_of_lookup_1.
  destruct (created_at ds vs j Hc)
    as (cc & cfg & a & bti & Hcc & Hcfg & Ha & Hchain & Hty & Hbti & Hd & _);
    [left; eauto|].
  rewrite Hj in Hd. injection Hd as ->. exists bti. simpl.
  repeat split; try done. by eapply enabled_of_turn.
Qed.

(** C6. The value indexer of every preminted position gets the key
    [chain_preminted_address] of its amount as data source, so the value
    indexers of two positions on one chain with different addresses have
    different keys. *)
Theorem value_identity_key
    (ds : list PremintedIndexer) (vs : list ValueIndexer) :
  createIndexers = Return (ds, vs) →
  (∀ v, v ∈ vs →
     ∃ a, premintedOnEnabledChain a ∧ vi_amountConfigs v = [a] ∧
       vi_dataSource v = a_chain a +:+ "_preminted_" +:+ a_address a) ∧
  (∀ v1 v2 a1 a2, v1 ∈ vs → v2 ∈ vs →
     vi_amountConfigs v1 = [a1] → vi_amountConfigs v2 = [a2] →
     a_chain a1 = a_chain a2 → a_address a1 ≠ a_address a2 →
     vi_dataSource v1 ≠ vi_dataSource v2).
Proof.
  intros Hc.
  assert (∀ v, v ∈ vs →
    ∃ a, premintedOnEnabledChain a ∧ vi_amountConfigs v = [a] ∧
      vi_dataSource v = a_chain a +:+ "_preminted_" +:+ a_address a) as Hkey.
  { intros v (j & Hj)%list_elem_of_lookup_1.
    destruct (created_at ds vs j Hc)
      as (cc & cfg & a & bti & Hcc & Hcfg & Ha & Hchain & Hty & _ & _ & Hv);
      [right; eauto|].
    rewrite Hj in Hv. injection Hv as ->. exists a. simpl.
    repeat split; try done. by eapply enabled_of_turn. }
  split; [exact Hkey|].
  intros v1 v2 a1 a2 Hv1 Hv2 Ha1 Ha2 Hchain Haddr.
  destruct (Hkey v1 Hv1) as (b1 & _ & Hb1 & ->).
  destruct (Hkey v2 Hv2) as (b2 & _ & Hb2 & ->).
  rewrite Ha1 in Hb1. rewrite Ha2 in Hb2. injection Hb1 as <-. injection Hb2 as <-.
  rewrite Hchain. intros Heq. by do 2 apply String.app_inj in Heq.
Qed.

(** C9. If some enabled chain has a preminted amount but no
    block-timestamp indexer, [createIndexers] throws the assertion's error,
    and so does [initPremintedModule]: no module is returned, hence no
    [start] can be called. *)
Theorem missing_block_timestamp_indexer_throws
    (cc : ChainTvlConfig) (a : AmountConfigEntry) :
  cc ∈ chains config → is_Some (cc_config cc) →
  a ∈ amounts config → a_chain a = cc_chain cc → a_type a = preminted →
  blockTimestampIndexers ≫= (λ m, m !! cc_chain cc) = None →
  createIndexers = Throw (AssertionError assertionMessage) ∧
  initPremintedModule = Throw (AssertionError assertionMessage) ∧
  ∀ m, initPremintedModule ≠ Return (Some m).
Proof.
  intros Hcc [cfg Hcfg] Ha Hchain Hty Hbti.
  assert (createIndexers = Throw (AssertionError assertionMessage)) as Hthrow.
  { rewrite createIndexers_plan.
    assert (mapM build (planOf (chains config)) = None) as ->; [|done].
    apply mapM_None, Exists_exists. exists (cc_chain cc, cfg, a). split.
    - apply elem_of_planOf. exists cc, cfg, a. repeat split; try done.
      by apply elem_of_premintedTokensOf.
    - simpl. by rewrite Hbti. }
  unfold initPremintedModule. rewrite Hthrow. by repeat split.
Qed.

(** ** The module's [start] *)

Lemma startEach_refs (fulfils : IndexerRef → bool) (refs : list IndexerRef) (e : Event) :
  e ∈ (startEach fulfils refs).1 → refOf e ∈ refs.
Proof.
  induction refs as [|r refs IH]; simpl; [by intros ?%elem_of_nil|].
  destruct (fulfils r).
  - destruct (startEach fulfils refs) as [events completed]. simpl in *.
    rewrite !elem_of_cons. intros [->|[->|He]]; simpl; auto.
  - simpl. rewrite !elem_of_cons, elem_of_nil. intros [->|[->|[]]]; simpl; auto.
Qed.

Lemma startEach_completed (fulfils : IndexerRef → bool) (refs : list IndexerRef)
    (r : IndexerRef) :
  (startEach fulfils refs).2 = true → r ∈ refs →
  StartCalled r ∈ (startEach fulfils refs).1 ∧
  StartFulfilled r ∈ (startEach fulfils refs).1.
Proof.
  induction refs as [|r' refs IH]; simpl; [by intros _ ?%elem_of_nil|].
  destruct (fulfils r'); [|done].
  destruct (startEach fulfils refs) as [events completed]. simpl in *.
  rewrite !elem_of_cons. intros Hc [->|Hr]; [by auto|].
  destruct (IH Hc Hr). auto.
Qed.


Lemma elem_of_refsOf {A : Type} (mk : nat → IndexerRef) (xs : list A) (r : IndexerRef) :
  r ∈ refsOf mk xs ↔ ∃ i, (i < length xs)%nat ∧ r = mk i.
Proof.
  unfold refsOf. rewrite list_elem_of_fmap. setoid_rewrite elem_of_seq.
  split; intros (i & ? & ?); exists i; split; (done || lia).
Qed.

Lemma start_events (fulfils : IndexerRef → bool) (m : PremintedModule) :
  start fulfils m =
  let data := startEach fulfils (refsOf DataRef (dataIndexers m)) in
  let value := startEach fulfils (refsOf ValueRef (valueIndexers m)) in
  if data.2 then (data.1 ++ value.1, value.2) else (data.1, false).
Proof.
  unfold start. destruct (startEach fulfils (refsOf DataRef _)) as [e1 [|]]; simpl; [|done].
  by destruct (startEach fulfils (refsOf ValueRef _)).
Qed.

Lemma init_Some (m : PremintedModule) :
  initPremintedModule = Return (Some m) →
  createIndexers = Return (dataIndexers m, valueIndexers m) ∧ dataIndexers m ≠ [].
Proof.
  unfold initPremintedModule. destruct createIndexers as [[ds vs]|e]; simpl; [|done].
  case_decide as Hlen; [done|]. intros [= <-]. simpl. split; [done|].
  by intros ->.
Qed.

(** C7. In every run of the module's [start], whether or not some awaited
    start is rejected, the call of a value indexer's [start] comes after
    the [start] of every data indexer has been fulfilled, in particular
    that of the data indexer it names as its parent. *)
Theorem data_indexers_start_first
    (m : PremintedModule) (fulfils : IndexerRef → bool)
    (pre post : list Event) (j : nat) :
  initPremintedModule = Return (Some m) →
  (start fulfils m).1 = pre ++ StartCalled (ValueRef j) :: post →
  (∀ i, (i < length (dataIndexers m))%nat →
     StartCalled (DataRef i) ∈ pre ∧ StartFulfilled (DataRef i) ∈ pre) ∧
  ∃ d v, dataIndexers m !! j = Some d ∧ valueIndexers m !! j = Some v ∧
    DataParent d ∈ vi_parents v ∧ StartFulfilled (DataRef j) ∈ pre.
Proof.
  intros [Hc _]%init_Some. rewrite start_events. simpl.
  set (data := startEach fulfils (refsOf DataRef (dataIndexers m))).
  set (value := startEach fulfils (refsOf ValueRef (valueIndexers m))).
  intros Htrace.
  assert (∀ e, e ∈ data.1 → e ≠ StartCalled (ValueRef j)) as Hdata.
  { intros e He ->. apply startEach_refs, elem_of_refsOf in He as (i & _ & [=]). }
  destruct (data.2) eqn:Hdone; simpl in Htrace.
  - assert (∃ mid, pre = data.1 ++ mid) as [mid ->].
    { apply app_eq_inv in Htrace as [(k & H1 & H2)|(k & H1 & _)]; [|by eauto].
      destruct k as [|e k]; [exists []; by rewrite app_nil_r in *|].
      injection H2 as <- _. destruct (Hdata (StartCalled (ValueRef j))); [|done].
      rewrite H1. apply elem_of_app. right. apply list_elem_of_here. }
    assert (∀ i, (i < length (dataIndexers m))%nat →
      StartCalled (DataRef i) ∈ data.1 ++ mid ∧
      StartFulfilled (DataRef i) ∈ data.1 ++ mid) as Hall.
    { intros i Hi. rewrite !elem_of_app.
      destruct (startEach_completed fulfils (refsOf DataRef (dataIndexers m))
                  (DataRef i) Hdone); [apply elem_of_refsOf; eauto|]. auto. }
    split; [done|].
    assert (StartCalled (ValueRef j) ∈ value.1) as Hj.
    { rewrite <- app_assoc in Htrace. apply app_inv_head in Htrace. rewrite Htrace.
      apply elem_of_app. right. apply list_elem_of_here. }
    apply startEach_refs, elem_of_refsOf in Hj as (j' & Hlt & [= <-]).
    apply lookup_lt_is_Some in Hlt as [v Hv].
    destruct (value_parents _ _ j v Hc Hv) as (d & Hd & Hparents & _).
    exists d, v. repeat split; try done.
    + rewrite Hparents. apply list_elem_of_further, list_elem_of_here.
    + apply Hall. by eapply lookup_lt_Some.
  - destruct (Hdata (StartCalled (ValueRef j))); [|done].
    rewrite Htrace. apply elem_of_app. right. apply list_elem_of_here.
Qed.


End createIndexers_facts.

(** * Properties of the cycles *)

Section cycle_facts.
Variables (period : positive) (work : Z → Outcome).

Lemma cycle_monotone (bound : option Z) (width : nat) (c : Z) (store : gmap Z Z) :
  c ≤ (cycle period work bound width c store).1.1.
Proof.
  revert c store. induction width as [|width IH]; intros c store; simpl; [lia|].
  destruct (withinBound bound (c + Z.pos period)); [|simpl; lia].
  destruct (work (c + Z.pos period)); simpl; try lia.
  etrans; [|apply IH]. lia.
Qed.

Lemma cycle_bounded (b : Z) (width : nat) (c : Z) (store : gmap Z Z) :
  (cycle period work (Some b) width c store).1.1 ≤ Z.max c b.
Proof.
  revert c store. induction width as [|width IH]; intros c store; simpl; [lia|].
  case_bool_decide as Hle; [|simpl; lia].
  destruct (work (c + Z.pos period)); simpl; try lia.
  etrans; [apply IH|]. lia.
Qed.

Lemma cycle_idle (b : Z) (width : nat) (c : Z) (store : gmap Z Z) :
  b ≤ c → cycle period work (Some b) width c store = (c, store, None).
Proof.
  intros Hle. destruct width as [|width]; simpl; [done|].
  case_bool_decide; [lia|done].
Qed.

End cycle_facts.


Lemma capBy_limit_le (m : Z) (bound : option Z) :
  ∃ b', capBy (Some m) bound = Some b' ∧ b' ≤ m.
Proof. destruct bound as [b|]; simpl; eexists; (split; [done|lia]). Qed.

Section pipeline_facts.
Context {C : Collaborators}.
Variables (period : positive) (d : PremintedIndexer) (v : ValueIndexer).

Abbreviation turn := (step period d v).
Abbreviation run := (run period d v).

Lemma run_app (l1 l2 : list Action) (s : Pipeline) :
  run (l1 ++ l2) s = run l2 (run l1 s).
Proof. apply foldl_app. Qed.

Lemma run_snoc (l : list Action) (a : Action) (s : Pipeline) :
  run (l ++ [a]) s = turn a (run l s).
Proof. by rewrite run_app. Qed.

Lemma step_monotone (i : IndexerName) (a : Action) (s : Pipeline) :
  cursor i s ≤ cursor i (turn a s).
Proof.
  destruct a as [|[factor|]|width resolveAmount|width]; simpl.
  - destruct i; simpl; lia.
  - destruct i; simpl; lia.
  - destruct i; simpl; lia.
  - pose proof (cycle_monotone period (resolveAmount (pi_configuration d))
                  (dataSafeBound d s) width (dataCursor s) (rawAmounts s)).
    destruct (cycle _ _ _ _ _ _) as [[c store] fault].
    destruct i; simpl in *; lia.
  - pose proof (cycle_monotone period (valueWork s)
                  (valueSafeBound v s) width (valueCursor s) (pricedValues s)).
    destruct (cycle _ _ _ _ _ _) as [[c store] fault].
    destruct i; simpl in *; lia.
Qed.

Lemma run_monotone (i : IndexerName) (l : list Action) (s : Pipeline) :
  cursor i s ≤ cursor i (run l s).
Proof.
  induction l as [|a l IH] using rev_ind; [simpl; lia|].
  rewrite run_snoc. etrans; [apply IH|apply step_monotone].
Qed.

(** C3. Along every sequence of turns of the pipeline, the cursor of each
    of its indexers at a later observation is at least its cursor at an
    earlier one. *)
Theorem cursors_never_regress
    (i : IndexerName) (actions : list Action) (s0 : Pipeline) (t1 t2 : nat) :
  (t1 < t2)%nat →
  cursor i (run (take t1 actions) s0) ≤ cursor i (run (take t2 actions) s0).
Proof.
  intros Hlt.
  rewrite <- (take_drop t1 (take t2 actions)), take_take, run_app.
  replace (t1 `min` t2)%nat with t1 by lia. apply run_monotone.
Qed.



Lemma dataSafeBound_until (s : Pipeline) (u : UnixTime) :
  a_untilTimestamp (pi_configuration d) = Some u →
  ∃ b, dataSafeBound d s = Some b ∧ b ≤ toNumber u.
Proof. intros Huntil. unfold dataSafeBound. rewrite Huntil. apply capBy_limit_le. Qed.

Lemma data_step_stops (a : Action) (s : Pipeline) (u : UnixTime) :
  a_untilTimestamp (pi_configuration d) = Some u →
  (dataCursor s ≤ toNumber u → dataCursor (turn a s) ≤ toNumber u) ∧
  (toNumber u ≤ dataCursor s →
   dataCursor (turn a s) = dataCursor s ∧ rawAmounts (turn a s) = rawAmounts s).
Proof.
  intros Huntil. destruct (dataSafeBound_until s u Huntil) as (b & Hb & Hle).
  destruct a as [|[factor|]|width resolveAmount|width];
    unfold step; cbv beta iota.
  - done.
  - done.
  - done.
  - rewrite Hb. split.
    + intros Hc.
      pose proof (cycle_bounded period (resolveAmount (pi_configuration d)) b width
                    (dataCursor s) (rawAmounts s)).
      destruct (cycle _ _ _ _ _ _) as [[c store] fault]. simpl in *. lia.
    + intros Hc. rewrite cycle_idle by lia. done.
  - by destruct (cycle _ _ _ _ _ _) as [[c store] fault].
Qed.

(** C2. A data indexer whose configuration has an end timestamp never
    moves its cursor past it; once the cursor has reached the end
    timestamp, no sequence of turns, of this indexer or of the others,
    moves the cursor or changes the raw-amount records. *)
Theorem data_indexer_stops_at_end_timestamp
    (u : UnixTime) (actions : list Action) (s0 : Pipeline) :
  a_untilTimestamp (pi_configuration d) = Some u →
  (dataCursor s0 ≤ toNumber u → dataCursor (run actions s0) ≤ toNumber u) ∧
  (toNumber u ≤ dataCursor s0 →
   dataCursor (run actions s0) = dataCursor s0 ∧
   rawAmounts (run actions s0) = rawAmounts s0).
Proof.
  intros Huntil. induction actions as [|a l [IH1 IH2]] using rev_ind; [done|].
  rewrite run_snoc.
  destruct (data_step_stops a (run l s0) u Huntil) as [H1 H2]. split.
  - intros Hle. apply H1, IH1, Hle.
  - intros Hle. destruct (IH2 Hle) as [Hc Hr].
    destruct H2 as [Hc' Hr']; [lia|]. split; congruence.
Qed.

End pipeline_facts.

(** C8. Against a provider that answers every attempt with a network
    failure, a call makes exactly the configured number of attempts and
    ends with [ProviderUnavailable]. *)
Theorem retry_ends_with_ProviderUnavailable
    (policy : RetryPolicy) (provider : nat → Reply) :
  (∀ n, ∃ failure, provider n = Unreachable failure) →
  result (call policy provider) = inl ProviderUnavailable ∧
  attempts (call policy provider) = maxAttempts policy ∧
  length (waits (call policy provider)) = pred (maxAttempts policy).
Proof.
  intros Hfails. unfold call.
  assert (∀ remaining made delay waited,
    result (retry provider remaining made delay waited) = inl ProviderUnavailable ∧
    attempts (retry provider remaining made delay waited) = (made + remaining)%nat ∧
    length (waits (retry provider remaining made delay waited)) =
      (length waited + pred remaining)%nat) as Hretry.
  { induction remaining as [|remaining IH]; intros made delay waited; simpl.
    - repeat split; lia.
    - destruct (Hfails made) as [failure ->].
      destruct remaining as [|remaining]; simpl; [repeat split; lia|].
      destruct (IH (S made) (2 * delay) (waited ++ [delay])) as (Hr & Ha & Hw).
      simpl in *. rewrite Hr, Ha, Hw, length_app. simpl. repeat split; lia. }
  destruct (Hretry (maxAttempts policy) 0%nat (initialDelay policy) []) as (Hr & Ha & Hw).
  by repeat split.
Qed.

(** * The value indexer and its parents *)

Section value_bound.
Context {C : Collaborators}.
Variables (config : TvlConfig) (peripherals : Peripherals)
  (dependencies : TvlDependencies) (configMapping : ConfigMapping)
  (descendantPriceIndexer : DescendantIndexer)
  (blockTimestampIndexers : option (gmap string BlockTimestampIndexer)).


End value_bound.

(** * What [createIndexers] depends on, and in which order it works *)

Section createIndexers_more.
Context {C : Collaborators}.
Variables (peripherals : Peripherals) (dependencies : TvlDependencies)
  (configMapping : ConfigMapping) (descendantPriceIndexer : DescendantIndexer).

Abbreviation create config btis :=
  (createIndexers config peripherals dependencies configMapping
     descendantPriceIndexer btis).
Abbreviation init config btis :=
  (initPremintedModule config peripherals dependencies configMapping
     descendantPriceIndexer btis).
Abbreviation buildIn config btis :=
  (build config peripherals dependencies configMapping
     descendantPriceIndexer btis).

Lemma planned_amounts (config : TvlConfig) :
  snd <$> planOf config (chains config) = plannedAmounts config.
Proof.
  unfold plannedAmounts, planOf.
  induction (chains config) as [|cc cs IH]; [done|].
  rewrite !bind_cons, fmap_app, IH. f_equal.
  unfold turnsOf. destruct (cc_config cc) as [cfg|]; [|done].
  induction (premintedTokensOf config (cc_chain cc)) as [|a toks IHt]; [done|].
  rewrite !fmap_cons. by f_equal.
Qed.

Lemma built_configurations (config : TvlConfig)
    (btis : option (gmap string BlockTimestampIndexer))
    (plan : list Turn) (pairs : list (PremintedIndexer * ValueIndexer)) :
  Forall2 (λ t p, buildIn config btis t = Some p) plan pairs →
  pi_configuration <$> pairs.*1 = snd <$> plan ∧
  vi_amountConfigs <$> pairs.*2 = (λ a, [a]) <$> (snd <$> plan).
Proof.
  induction 1 as [|[[chain cfg] a] [d v] ts ps Hb _ [IH1 IH2]]; [done|].
  rewrite !fmap_cons, IH1, IH2. simpl in Hb.
  destruct (btis ≫= _); [|done]. by simplify_eq/=.
Qed.

(** X1. The data indexers come out in the order of [config.chains] and,
    within a chain, of [config.amounts]; the value indexers come out in
    the same order, one for each data indexer. *)
Theorem created_in_configuration_order (config : TvlConfig)
    (btis : option (gmap string BlockTimestampIndexer))
    (ds : list PremintedIndexer) (vs : list ValueIndexer) :
  create config btis = Return (ds, vs) →
  pi_configuration <$> ds = plannedAmounts config ∧
  vi_amountConfigs <$> vs = (λ a, [a]) <$> plannedAmounts config ∧
  length ds = length vs.
Proof.
  intros (pairs & -> & -> & Hall)%createIndexers_pairs.
  destruct (built_configurations _ _ _ _ Hall) as [H1 H2].
  rewrite H1, H2, planned_amounts, !length_fmap. done.
Qed.

Lemma premintedTokensOf_alt (config : TvlConfig) (chain : string) :
  premintedTokensOf config chain =
  filter (λ a, a_chain a = chain) (filter (λ a, a_type a = preminted) (amounts config)).
Proof.
  unfold premintedTokensOf. rewrite !list_filter_filter.
  apply list_filter_iff. tauto.
Qed.

Lemma planOf_enabled (config : TvlConfig) (cs : list ChainTvlConfig) :
  planOf config cs = planOf config (filter (λ cc, is_Some (cc_config cc)) cs).
Proof.
  unfold planOf. induction cs as [|cc cs IH]; [done|].
  rewrite bind_cons, IH. unfold turnsOf at 1.
  destruct (cc_config cc) as [cfg|] eqn:Hcfg.
  - rewrite filter_cons_True by (by rewrite Hcfg). rewrite bind_cons.
    unfold turnsOf at 2. by rewrite Hcfg.
  - rewrite filter_cons_False; [done|]. rewrite Hcfg. by intros [? ?].
Qed.

Lemma planOf_amounts (config config' : TvlConfig) (cs : list ChainTvlConfig) :
  filter (λ a, a_type a = preminted) (amounts config') =
  filter (λ a, a_type a = preminted) (amounts config) →
  planOf config' cs = planOf config cs.
Proof.
  intros Heq. unfold planOf. induction cs as [|cc cs IH]; [done|].
  rewrite !bind_cons, IH. f_equal. unfold turnsOf.
  by rewrite !premintedTokensOf_alt, Heq.
Qed.

Lemma build_config (config config' : TvlConfig)
    (btis : option (gmap string BlockTimestampIndexer)) (t : Turn) :
  maxTimestampsToAggregateAtOnce config' = maxTimestampsToAggregateAtOnce config →
  buildIn config' btis t = buildIn config btis t.
Proof.
  intros Hmax. destruct t as [[chain cfg] a]. unfold build, newValueIndexer.
  by rewrite Hmax.
Qed.

Lemma length_filter_fmap {A B : Type} `{EqDecision B} (f : A → B) (b : B)
    (l : list A) :
  length (filter (λ x, f x = b) l) = length (filter (λ y, y = b) (f <$> l)).
Proof.
  induction l as [|x l IH]; [done|].
  rewrite fmap_cons, !filter_cons. by repeat case_decide; simpl; rewrite ?IH.
Qed.

Lemma filter_none {A : Type} (P : A → Prop) `{∀ x, Decision (P x)} (l : list A) :
  (∀ x, x ∈ l → ¬ P x) → filter P l = [].
Proof.
  induction l as [|x l IH]; [done|]. intros Hall.
  rewrite filter_cons_False by apply Hall, list_elem_of_here.
  apply IH. intros y Hy. by apply Hall, list_elem_of_further.
Qed.

(** How often an amount is met on a chain. *)
Lemma premintedTokensOf_count (config : TvlConfig) (chain : string)
    (a : AmountConfigEntry) :
  a_type a = preminted →
  length (filter (λ a', a' = a) (premintedTokensOf config chain)) =
  if decide (chain = a_chain a)
  then length (filter (λ a', a' = a) (amounts config)) else 0%nat.
Proof.
  intros Hty. case_decide as Hchain.
  - unfold premintedTokensOf. rewrite !list_filter_filter. f_equal.
    apply list_filter_iff. intros a'. split; [tauto|]. by intros ->.
  - rewrite filter_none; [done|].
    intros a' (_ & Hc & _)%elem_of_premintedTokensOf ->. by destruct Hchain.
Qed.

Lemma plannedAmounts_count (config : TvlConfig) (a : AmountConfigEntry) :
  a_type a = preminted →
  length (filter (λ a', a' = a) (plannedAmounts config)) =
  (length (filter (λ cc, cc_chain cc = a_chain a ∧ is_Some (cc_config cc))
             (chains config)) *
   length (filter (λ a', a' = a) (amounts config)))%nat.
Proof.
  intros Hty. unfold plannedAmounts.
  induction (chains config) as [|cc cs IH]; [done|].
  rewrite bind_cons, filter_app, length_app, IH.
  destruct (cc_config cc) as [cfg|] eqn:Hcfg.
  - rewrite premintedTokensOf_count by done. case_decide as Hchain.
    + rewrite filter_cons_True by (split; [done|by rewrite Hcfg]). done.
    + rewrite filter_cons_False by tauto. done.
  - rewrite filter_cons_False; [done|]. rewrite Hcfg. by intros [_ [? ?]].
Qed.

(** C5, amended. For every preminted amount, [createIndexers] creates as
    many data indexers, and as many value indexers, as the number of times
    the amount's chain is listed with a config in [config.chains] times
    the number of times the amount is listed in [config.amounts]: exactly
    one of each when both are listed once. Each such data indexer has the
    amount's [sinceTimestamp] as minimum height and is followed, at the
    same place of the other array, by a value indexer for the same amount
    with the same minimum height and the amount's [untilTimestamp], when
    there is one, as maximum height. *)
Theorem pairs_per_preminted_position (config : TvlConfig)
    (btis : option (gmap string BlockTimestampIndexer))
    (ds : list PremintedIndexer) (vs : list ValueIndexer) (a : AmountConfigEntry) :
  create config btis = Return (ds, vs) → a_type a = preminted →
  let listings :=
    (length (filter (λ cc, cc_chain cc = a_chain a ∧ is_Some (cc_config cc))
               (chains config)) *
     length (filter (λ a', a' = a) (amounts config)))%nat in
  length (filter (λ d, pi_configuration d = a) ds) = listings ∧
  length (filter (λ v, vi_amountConfigs v = [a]) vs) = listings ∧
  (premintedOnEnabledChain config a → (1 ≤ listings)%nat) ∧
  ∀ j d, ds !! j = Some d → pi_configuration d = a →
    pi_minHeight d = toNumber (a_sinceTimestamp a) ∧
    ∃ v, vs !! j = Some v ∧ vi_amountConfigs v = [a] ∧
      vi_minHeight v = toNumber (a_sinceTimestamp a) ∧
      vi_maxHeight v = toNumber <$> a_untilTimestamp a.
Proof.
  intros Hc Hty listings. subst listings.
  pose proof (createIndexers_pairs _ _ _ _ _ _ ds vs Hc) as (pairs & Hds & Hvs & Hall).
  destruct (built_configurations _ _ _ _ Hall) as [H1 H2].
  rewrite planned_amounts in H1, H2. rewrite <- Hds in H1. rewrite <- Hvs in H2.
  split; [|split; [|split]].
  - by rewrite length_filter_fmap, H1, plannedAmounts_count.
  - rewrite length_filter_fmap, H2, <- length_filter_fmap.
    rewrite <- (plannedAmounts_count config a Hty). f_equal.
    apply list_filter_iff. intros a'. split; [by intros [= ->]|by intros ->].
  - intros (Ha & _ & cc & Hcc & Hchain & Hsome).
    assert (cc ∈ filter (λ cc, cc_chain cc = a_chain a ∧ is_Some (cc_config cc))
                   (chains config)) as Hin1 by (by apply list_elem_of_filter).
    assert (a ∈ filter (λ a', a' = a) (amounts config)) as Hin2
      by (by apply list_elem_of_filter).
    destruct (filter _ (chains config)); [by apply elem_of_nil in Hin1|].
    destruct (filter _ (amounts config)); [by apply elem_of_nil in Hin2|].
    simpl. lia.
  - intros j d Hd Hcfg.
    destruct (created_at _ _ _ _ _ _ ds vs j Hc)
      as (cc & cfg & a' & bti & _ & _ & _ & _ & _ & _ & Hd' & Hv); [left; eauto|].
    rewrite Hd in Hd'. injection Hd' as ->. simpl in Hcfg. subst a'.
    split; [done|]. eexists. split; [exact Hv|]. done.
Qed.

(** X3. The result depends on the configuration only through its enabled
    chains, its preminted amounts and [maxTimestampsToAggregateAtOnce]:
    chains without a config and amounts of other kinds change nothing. *)
Theorem createIndexers_ignores_the_rest (config config' : TvlConfig)
    (btis : option (gmap string BlockTimestampIndexer)) :
  filter (λ cc, is_Some (cc_config cc)) (chains config') =
  filter (λ cc, is_Some (cc_config cc)) (chains config) →
  filter (λ a, a_type a = preminted) (amounts config') =
  filter (λ a, a_type a = preminted) (amounts config) →
  maxTimestampsToAggregateAtOnce config' = maxTimestampsToAggregateAtOnce config →
  create config' btis = create config btis.
Proof.
  intros Hchains Hamounts Hmax. rewrite !createIndexers_plan.
  rewrite (planOf_enabled config'), Hchains, <- planOf_enabled.
  rewrite (planOf_amounts config config') by done.
  by rewrite (mapM_ext _ _ _ (λ t, build_config config config' btis t Hmax)).
Qed.

(** X4. Of the block-timestamp indexers only those of enabled chains with
    a preminted amount are looked at: two maps that agree on these chains
    give the same result. *)
Theorem createIndexers_reads_needed_lookups (config : TvlConfig)
    (btis btis' : option (gmap string BlockTimestampIndexer)) :
  (∀ cc a, cc ∈ chains config → is_Some (cc_config cc) →
     a ∈ amounts config → a_chain a = cc_chain cc → a_type a = preminted →
     btis' ≫= (λ m, m !! cc_chain cc) = btis ≫= (λ m, m !! cc_chain cc)) →
  create config btis' = create config btis.
Proof.
  intros Hagree. rewrite !createIndexers_plan.
  rewrite (Forall_mapM_ext (buildIn config btis') (buildIn config btis)); [done|].
  apply Forall_forall.
  intros t (cc & cfg & a & Hcc & Hcfg & Ha & ->)%elem_of_planOf.
  apply elem_of_premintedTokensOf in Ha as (Ha & Hchain & Hty).
  simpl. rewrite (Hagree cc a); by eauto.
Qed.

(** X5. The amount service of a data indexer talks to the indexer's own
    chain: its RPC client is the one of an enabled entry of
    [config.chains] with the chain of the indexer's configuration, and its
    multicall client wraps that same RPC client. *)
Theorem data_indexer_services (config : TvlConfig)
    (btis : option (gmap string BlockTimestampIndexer))
    (ds : list PremintedIndexer) (vs : list ValueIndexer) (d : PremintedIndexer) :
  create config btis = Return (ds, vs) → d ∈ ds →
  ∃ cc cfg, cc ∈ chains config ∧ cc_config cc = Some cfg ∧
    cc_chain cc = a_chain (pi_configuration d) ∧
    as_rpcClient (pi_amountService d) =
      getClient peripherals (providerUrl cfg) (providerCallsPerMinute cfg)
        (a_chain (pi_configuration d)) ∧
    mc_rpcClient (as_multicallClient (pi_amountService d)) =
      as_rpcClient (pi_amountService d) ∧
    mc_config (as_multicallClient (pi_amountService d)) = multicallConfig cfg ∧
    as_logger (pi_amountService d) =
      logger_tag (logger dependencies) (a_chain (pi_configuration d)).
Proof.
  intros Hc (j & Hj)%list_elem_of_lookup_1.
  destruct (created_at _ _ _ _ _ _ ds vs j Hc)
    as (cc & cfg & a & bti & Hcc & Hcfg & Ha & Hchain & Hty & Hbti & Hd & _);
    [left; eauto|].
  rewrite Hj in Hd. injection Hd as ->. exists cc, cfg. simpl. by repeat split.
Qed.

(** X6. A value indexer prices exactly one amount, its own: its price
    configs are the single one the config mapping gives for that amount,
    its project is the amount's project, and its batch limit is
    [config.maxTimestampsToAggregateAtOnce]. *)
Theorem value_indexer_prices_its_amount (config : TvlConfig)
    (btis : option (gmap string BlockTimestampIndexer))
    (ds : list PremintedIndexer) (vs : list ValueIndexer) (v : ValueIndexer) :
  create config btis = Return (ds, vs) → v ∈ vs →
  ∃ a, premintedOnEnabledChain config a ∧
    vi_amountConfigs v = [a] ∧
    vi_priceConfigs v = [getPriceConfigFromAmountConfig configMapping a] ∧
    vi_project v = a_project a ∧
    vi_maxTimestampsToProcessAtOnce v = maxTimestampsToAggregateAtOnce config.
Proof.
  intros Hc (j & Hj)%list_elem_of_lookup_1.
  destruct (created_at _ _ _ _ _ _ ds vs j Hc)
    as (cc & cfg & a & bti & Hcc & Hcfg & Ha & Hchain & Hty & Hbti & _ & Hv);
    [right; eauto|].
  rewrite Hj in Hv. injection Hv as ->. exists a. simpl. repeat split; try done.
  exists cc. by rewrite Hcfg.
Qed.

(** X7. Working through [config.chains] composes: for a list of chains in
    two parts, the result is what the first part gives followed by what
    the second part gives, and it throws as soon as one of them does. *)
Theorem createIndexers_app (config config1 config2 : TvlConfig)
    (btis : option (gmap string BlockTimestampIndexer)) :
  chains config = chains config1 ++ chains config2 →
  amounts config1 = amounts config → amounts config2 = amounts config →
  maxTimestampsToAggregateAtOnce config1 = maxTimestampsToAggregateAtOnce config →
  maxTimestampsToAggregateAtOnce config2 = maxTimestampsToAggregateAtOnce config →
  create config btis =
  r1 ← create config1 btis; r2 ← create config2 btis;
  Return (r1.1 ++ r2.1, r1.2 ++ r2.2).
Proof.
  intros Hchains Ha1 Ha2 Hm1 Hm2. rewrite !createIndexers_plan, Hchains.
  unfold planOf at 1. rewrite bind_app. fold (planOf config (chains config1)).
  fold (planOf config (chains config2)). rewrite mapM_option_app.
  rewrite <- (planOf_amounts config1 config (chains config1)) by by rewrite Ha1.
  rewrite <- (planOf_amounts config2 config (chains config2)) by by rewrite Ha2.
  rewrite (mapM_ext (buildIn config btis) _ (planOf config (chains config1))
             (λ t, build_config config1 config btis t (eq_sym Hm1))).
  rewrite (mapM_ext (buildIn config btis) _ (planOf config (chains config2))
             (λ t, build_config config2 config btis t (eq_sym Hm2))).
  destruct (mapM (buildIn config1 btis) _) as [p1|]; [|done].
  destruct (mapM (buildIn config2 btis) _) as [p2|]; [|done].
  simpl. by rewrite !fmap_app.
Qed.

Lemma mapM_Permutation {A B : Type} (f : A → option B) (l l' : list A) :
  l ≡ₚ l' →
  match mapM f l, mapM f l' with
  | Some k, Some k' => k ≡ₚ k'
  | None, None => True
  | _, _ => False
  end.
Proof.
  induction 1 as [|x l l' _ IH|x y l|l1 l2 l3 _ IH1 _ IH2]; simpl.
  - done.
  - destruct (f x); simpl; [|done].
    destruct (mapM f l), (mapM f l'); simpl; try done. by constructor.
  - destruct (f x), (f y); simpl; try done;
      destruct (mapM f l); simpl; try done. by constructor.
  - destruct (mapM f l1), (mapM f l2), (mapM f l3); try done. by etrans.
Qed.

(** X8. The order of [config.chains] decides the order of the indexers and
    nothing else: listing the same chains in another order gives the same
    pairs of indexers in another order, or the same error. *)
Theorem createIndexers_chain_order (config config' : TvlConfig)
    (btis : option (gmap string BlockTimestampIndexer)) :
  chains config' ≡ₚ chains config → amounts config' = amounts config →
  maxTimestampsToAggregateAtOnce config' = maxTimestampsToAggregateAtOnce config →
  match create config btis, create config' btis with
  | Return (ds, vs), Return (ds', vs') =>
    ds' ≡ₚ ds ∧ vs' ≡ₚ vs ∧ zip ds' vs' ≡ₚ zip ds vs
  | Throw e, Throw e' => e' = e
  | _, _ => False
  end.
Proof.
  intros Hperm Hamounts Hmax. rewrite !createIndexers_plan.
  rewrite (planOf_amounts config config' (chains config')) by by rewrite Hamounts.
  rewrite (mapM_ext _ _ _ (λ t, build_config config config' btis t Hmax)).
  assert (planOf config (chains config') ≡ₚ planOf config (chains config)) as Hplan
    by (unfold planOf; by rewrite Hperm).
  pose proof (mapM_Permutation (buildIn config btis) _ _ Hplan) as Hm.
  destruct (mapM _ (planOf config (chains config'))) as [pairs'|],
    (mapM _ (planOf config (chains config))) as [pairs|]; try done.
  rewrite !zip_fst_snd. split; [by rewrite Hm|]. split; [by rewrite Hm|done].
Qed.

(** X9. A module is returned with as many value indexers as data indexers,
    and with at least one of each. *)
Theorem module_arrays (config : TvlConfig)
    (btis : option (gmap string BlockTimestampIndexer)) (m : PremintedModule) :
  init config btis = Return (Some m) →
  length (valueIndexers m) = length (dataIndexers m) ∧
  (0 < length (dataIndexers m))%nat.
Proof.
  intros [Hc Hne]%init_Some.
  apply created_in_configuration_order in Hc as (_ & _ & Hlen).
  split; [done|]. destruct (dataIndexers m); [done|simpl; lia].
Qed.

Lemma NoDup_fmap_inj_elem {A B : Type} (f : A → B) (l : list A) (x y : A) :
  NoDup (f <$> l) → x ∈ l → y ∈ l → f x = f y → x = y.
Proof.
  induction l as [|z l IH]; [by intros _ ?%elem_of_nil|].
  rewrite fmap_cons, NoDup_cons, !elem_of_cons.
  intros [Hfresh Hnd] [->|Hx] [->|Hy] Heq; try done.
  - destruct Hfresh. rewrite Heq. by apply list_elem_of_fmap_2.
  - destruct Hfresh. rewrite <- Heq. by apply list_elem_of_fmap_2.
  - by apply IH.
Qed.

Lemma underscore_splits (c1 c2 r1 r2 : string) :
  hasUnderscore c1 = false → hasUnderscore c2 = false →
  c1 +:+ String "_"%char r1 = c2 +:+ String "_"%char r2 → c1 = c2 ∧ r1 = r2.
Proof.
  revert c2. induction c1 as [|x c1 IH]; intros [|y c2]; simpl.
  - by intros _ _ [= ->].
  - intros _ Hy [= <- _]. by rewrite Ascii.eqb_refl in Hy.
  - intros Hx _ [= -> _]. by rewrite Ascii.eqb_refl in Hx.
  - destruct (Ascii.eqb x "_"%char) eqn:Hx; [done|].
    destruct (Ascii.eqb y "_"%char) eqn:Hy; [done|].
    intros H1 H2 [= -> Heq]. destruct (IH c2 H1 H2 Heq) as [-> ->]. done.
Qed.

(** X10. When no chain name has an underscore, the data source tells both
    the chain and the address: two keys are equal only for the same chain
    and the same address. *)
Theorem dataSourceOf_inj (chain1 chain2 address1 address2 : string) :
  hasUnderscore chain1 = false → hasUnderscore chain2 = false →
  dataSourceOf chain1 address1 = dataSourceOf chain2 address2 →
  chain1 = chain2 ∧ address1 = address2.
Proof.
  intros H1 H2 Heq. unfold dataSourceOf in Heq.
  destruct (underscore_splits _ _ _ _ H1 H2 Heq) as [-> Hrest].
  split; [done|]. by simplify_eq/=.
Qed.

(** X11. When chain names have no underscore, each chain is listed once
    and no two preminted amounts share chain and address, the value
    indexers have pairwise different data sources. *)
Theorem data_sources_distinct (config : TvlConfig)
    (btis : option (gmap string BlockTimestampIndexer))
    (ds : list PremintedIndexer) (vs : list ValueIndexer) :
  (∀ cc, cc ∈ chains config → hasUnderscore (cc_chain cc) = false) →
  NoDup (cc_chain <$> chains config) →
  NoDup ((λ a, (a_chain a, a_address a)) <$>
           filter (λ a, a_type a = preminted) (amounts config)) →
  create config btis = Return (ds, vs) →
  NoDup (vi_dataSource <$> vs).
Proof.
  intros Hnames Hchains Hkeys (pairs & _ & -> & Hall)%createIndexers_pairs.
  assert (vi_dataSource <$> pairs.*2 =
          (λ t : Turn, dataSourceOf t.1.1 (a_address t.2)) <$>
            planOf config (chains config)) as ->.
  { clear -Hall. induction Hall as [|[[chain cfg] a] [d v] ts ps Hb _ IH]; [done|].
    rewrite !fmap_cons, IH. simpl in Hb. destruct (btis ≫= _); [|done].
    by simplify_eq/=. }
  assert (NoDup (filter (λ a, a_type a = preminted) (amounts config))) as Hnd
    by (by eapply NoDup_fmap_1).
  assert (∀ cc a, a ∈ premintedTokensOf config cc →
            a ∈ filter (λ a, a_type a = preminted) (amounts config)) as Hin.
  { intros cc a. rewrite premintedTokensOf_alt, list_elem_of_filter. tauto. }
  apply NoDup_fmap_2_strong.
  - intros t1 t2
      (cc1 & cfg1 & a1 & Hcc1 & Hcfg1 & Ha1 & ->)%elem_of_planOf
      (cc2 & cfg2 & a2 & Hcc2 & Hcfg2 & Ha2 & ->)%elem_of_planOf Heq.
    simpl in Heq.
    apply dataSourceOf_inj in Heq as [Hc Haddr]; [|by apply Hnames..].
    assert (cc1 = cc2) as -> by (by apply (chain_name_inj (chains config))).
    assert (cfg1 = cfg2) as -> by congruence.
    assert (a1 = a2) as ->; [|done].
    pose proof Ha1 as (_ & Hch1 & _)%elem_of_premintedTokensOf.
    pose proof Ha2 as (_ & Hch2 & _)%elem_of_premintedTokensOf.
    apply (NoDup_fmap_inj_elem (λ a, (a_chain a, a_address a))
             (filter (λ a, a_type a = preminted) (amounts config)));
      eauto; congruence.
  - unfold planOf. apply NoDup_bind.
    + intros cc1 cc2 t H1 H2 Ht1 Ht2.
      apply (chain_name_inj (chains config)); [done..|].
      unfold turnsOf in Ht1, Ht2.
      destruct (cc_config cc1); [|by apply elem_of_nil in Ht1].
      destruct (cc_config cc2); [|by apply elem_of_nil in Ht2].
      apply list_elem_of_fmap in Ht1 as (a1 & -> & _).
      apply list_elem_of_fmap in Ht2 as (a2 & [= ? _ _] & _). done.
    + intros cc _. unfold turnsOf. destruct (cc_config cc); [|constructor].
      apply NoDup_fmap_2; [by intros ?? [=]|].
      rewrite premintedTokensOf_alt. by apply NoDup_filter.
    + by eapply NoDup_fmap_1.
Qed.

End createIndexers_more.

(** * The shape of a run of [start] *)

Section start_more.
Context {C : Collaborators}.

Lemma startEach_shape (fulfils : IndexerRef → bool) (refs : list IndexerRef) :
  ∃ rs, rs `prefix_of` refs ∧
    (startEach fulfils refs).1 = rs ≫= awaited fulfils ∧
    if (startEach fulfils refs).2
    then rs = refs ∧ ∀ r, r ∈ refs → fulfils r = true
    else ∃ rs' r, rs = rs' ++ [r] ∧ fulfils r = false ∧
           ∀ r', r' ∈ rs' → fulfils r' = true.
Proof.
  induction refs as [|r refs (rs & Hpre & Htrace & Hend)]; simpl.
  - exists []. repeat split; [done|]. by intros r ?%elem_of_nil.
  - destruct (fulfils r) eqn:Hr.
    + destruct (startEach fulfils refs) as [events completed]. simpl in *.
      exists (r :: rs). split; [by apply prefix_cons|].
      split; [rewrite bind_cons, <- Htrace; unfold awaited; by rewrite Hr|].
      destruct completed.
      * destruct Hend as [-> Hall]. split; [done|].
        intros r' [->|?]%elem_of_cons; auto.
      * destruct Hend as (rs' & r0 & -> & Hr0 & Hall). exists (r :: rs'), r0.
        repeat split; try done. intros r' [->|?]%elem_of_cons; auto.
    + exists [r]. split; [apply prefix_cons, prefix_nil|]. simpl.
      split; [unfold awaited; by rewrite Hr|].
      exists [], r. repeat split; try done. by intros r' ?%elem_of_nil.
Qed.

(** X12. A run of [start] awaits one indexer after the other, in the order
    of the two arrays, data indexers first: its trace is made of the
    call of each started indexer directly followed by its fulfilment or
    rejection, the started indexers are an initial part of the arrays, all
    of them when [start] completes, and up to the first rejected one
    otherwise. *)
Theorem start_trace_shape (fulfils : IndexerRef → bool) (m : PremintedModule) :
  ∃ rs, rs `prefix_of` allRefs m ∧
    (start fulfils m).1 = rs ≫= awaited fulfils ∧
    if (start fulfils m).2
    then rs = allRefs m ∧ ∀ r, r ∈ allRefs m → fulfils r = true
    else ∃ rs' r, rs = rs' ++ [r] ∧ fulfils r = false ∧
           ∀ r', r' ∈ rs' → fulfils r' = true.
Proof.
  rewrite start_events. unfold allRefs. simpl.
  destruct (startEach_shape fulfils (refsOf DataRef (dataIndexers m)))
    as (rs1 & Hpre1 & Htrace1 & Hend1).
  destruct ((startEach fulfils (refsOf DataRef (dataIndexers m))).2); simpl.
  - destruct Hend1 as [-> Hall1].
    destruct (startEach_shape fulfils (refsOf ValueRef (valueIndexers m)))
      as (rs2 & Hpre2 & Htrace2 & Hend2).
    exists (refsOf DataRef (dataIndexers m) ++ rs2).
    split; [by apply prefix_app|].
    split; [by rewrite bind_app, Htrace1, Htrace2|].
    destruct ((startEach fulfils (refsOf ValueRef (valueIndexers m))).2).
    + destruct Hend2 as [-> Hall2]. split; [done|].
      intros r [?|?]%elem_of_app; auto.
    + destruct Hend2 as (rs' & r & -> & Hr & Hall2).
      exists (refsOf DataRef (dataIndexers m) ++ rs'), r.
      rewrite app_assoc. repeat split; try done.
      intros r' [?|?]%elem_of_app; auto.
  - exists rs1. split; [by apply prefix_app_r|]. by split.
Qed.

(** X13. [start] completes exactly when the [start] of every indexer of
    the module is fulfilled. *)
Theorem start_completes_iff (fulfils : IndexerRef → bool) (m : PremintedModule) :
  (start fulfils m).2 = true ↔ ∀ r, r ∈ allRefs m → fulfils r = true.
Proof.
  destruct (start_trace_shape fulfils m) as (rs & Hpre & _ & Hend).
  destruct ((start fulfils m).2).
  - by destruct Hend as [_ Hall].
  - split; [done|]. intros Hall.
    destruct Hend as (rs' & r & -> & Hr & _). rewrite <- Hr. apply Hall.
    destruct Hpre as [k ->]. rewrite !elem_of_app, list_elem_of_singleton. auto.
Qed.

Lemma NoDup_allRefs (m : PremintedModule) : NoDup (allRefs m).
Proof.
  unfold allRefs, refsOf. apply NoDup_app. repeat split.
  - apply NoDup_fmap_2; [by intros ?? [=]|apply NoDup_seq].
  - intros r (i & -> & _)%list_elem_of_fmap (j & [=] & _)%list_elem_of_fmap.
  - apply NoDup_fmap_2; [by intros ?? [=]|apply NoDup_seq].
Qed.

(** X14. No event occurs twice in a run of [start]: the [start] of an
    indexer is called at most once. *)
Theorem start_calls_once (fulfils : IndexerRef → bool) (m : PremintedModule) :
  NoDup (start fulfils m).1.
Proof.
  destruct (start_trace_shape fulfils m) as (rs & [k Hk] & -> & _).
  pose proof (NoDup_allRefs m) as Hnd. rewrite Hk in Hnd.
  apply NoDup_app in Hnd as (Hrs & _ & _).
  apply NoDup_bind; [|intros r _|done].
  - intros r1 r2 e _ _ H1 H2. unfold awaited in H1, H2.
    rewrite !elem_of_cons, elem_of_nil in H1, H2.
    destruct H1 as [->|[->|[]]], H2 as [H2|[H2|[]]];
      repeat case_match; by simplify_eq.
  - unfold awaited. apply NoDup_cons. split; [|apply NoDup_singleton].
    rewrite list_elem_of_singleton. by case_match.
Qed.

End start_more.

(** * The definitions at work on the small configuration *)

Section Example_runs.
Import Example.
#[local] Existing Instance units.

Example created_example :
  created = Return ([opData; strkData], [opValue; strkValue]).
Proof. vm_compute. reflexivity. Qed.

Example init_example :
  initPremintedModule config peripherals dependencies configMapping tt
    blockTimestampIndexers = Return (Some module).
Proof. vm_compute. reflexivity. Qed.

Example init_without_preminted :
  initPremintedModule
    {| chains := [arbitrum; ethereum]; amounts := [escrowed; arb];
       maxTimestampsToAggregateAtOnce := 24 |}
    peripherals dependencies configMapping tt None = Return None.
Proof. vm_compute. reflexivity. Qed.

Example data_sources :
  vi_dataSource <$> [opValue; strkValue] =
  ["ethereum_preminted_0xaa"; "ethereum_preminted_0xbb"].
Proof. reflexivity. Qed.

Example start_example :
  start (λ _, true) module =
  ([StartCalled (DataRef 0); StartFulfilled (DataRef 0);
    StartCalled (DataRef 1); StartFulfilled (DataRef 1);
    StartCalled (ValueRef 0); StartFulfilled (ValueRef 0);
    StartCalled (ValueRef 1); StartFulfilled (ValueRef 1)], true).
Proof. reflexivity. Qed.

(** The specification's scenario: minimum height 100, the chain's
    block-timestamp cursor at 150, a constant balance of 1000 and batch
    width 10 give cursor 110 and the ten records 101 to 110. *)
Example catch_up_scenario :
  let s := run 1 opData opValue [DataCycle 10 constantBalance] freshStart in
  dataCursor s = 110 ∧
  rawAmounts s = list_to_map ((λ t, (t, 1000)) <$> seqZ 101 10).
Proof. split; vm_compute; reflexivity. Qed.

Example retry_recovers :
  call policy recovering = {| result := inr 7; attempts := 3; waits := [100; 200] |}.
Proof. reflexivity. Qed.

Example start_with_rejection :
  start firstRejects module = ([StartCalled (DataRef 0); StartRejected (DataRef 0)], false).
Proof. reflexivity. Qed.

Abbreviation createIndexersHere btis :=
  (createIndexers config peripherals dependencies configMapping tt btis).
Abbreviation createIndexersWith cfg :=
  (createIndexers cfg peripherals dependencies configMapping tt
     blockTimestampIndexers).
Abbreviation initHere btis :=
  (initPremintedModule config peripherals dependencies configMapping tt btis).

Lemma op_on_enabled_chain : premintedOnEnabledChain config op.
Proof.
  split; [apply list_elem_of_further, list_elem_of_here|]. split; [reflexivity|].
  exists ethereum. split; [apply list_elem_of_further, list_elem_of_here|].
  split; [reflexivity|]. by eexists.
Defined.


Lemma data_indexer_stops_at_end_timestamp_witness :
  a_untilTimestamp (pi_configuration opData) = Some {| toNumber := 175 |} ∧
  dataSafeBound opData nearEnd = Some 175 ∧ blockCursor nearEnd = 200 ∧
  dataCursor nearEnd ≤ toNumber {| toNumber := 175 |} ∧
  dataCursor (run 1 opData opValue moreTurns nearEnd) ≤ 175 ∧
  dataSafeBound opData atEnd = Some 175 ∧ blockCursor atEnd = 200 ∧
  toNumber {| toNumber := 175 |} ≤ dataCursor atEnd ∧
  dataCursor (run 1 opData opValue moreTurns atEnd) = dataCursor atEnd ∧
  rawAmounts (run 1 opData opValue moreTurns atEnd) = rawAmounts atEnd.
Proof.
  assert (dataCursor nearEnd ≤ toNumber {| toNumber := 175 |}) as Hnear
    by (vm_compute; discriminate).
  assert (toNumber {| toNumber := 175 |} ≤ dataCursor atEnd) as Hat
    by (vm_compute; discriminate).
  do 3 (split; [reflexivity|]). split; [exact Hnear|].
  split; [exact (proj1 (data_indexer_stops_at_end_timestamp 1 opData opValue
                          {| toNumber := 175 |} moreTurns nearEnd eq_refl) Hnear)|].
  do 2 (split; [reflexivity|]). split; [exact Hat|].
  exact (proj2 (data_indexer_stops_at_end_timestamp 1 opData opValue
                  {| toNumber := 175 |} moreTurns atEnd eq_refl) Hat).
Defined.

(** With the block-timestamp indexer past the end timestamp, the data
    indexer of the position that ends at 175 goes from 170 to 175 and
    stays; the data indexer of the position without an end goes on. *)
Example end_timestamp_at_work :
  dataCursor (run 1 opData opValue moreTurns nearEnd) = 175 ∧
  rawAmounts (run 1 opData opValue moreTurns nearEnd) =
    list_to_map ((λ t, (t, 1000)) <$> seqZ 171 5) ∧
  dataCursor (run 1 strkData strkValue moreTurns
                (startup strkData strkValue 200 40 (Some 175) None)) = 188.
Proof. repeat split; vm_compute; reflexivity. Qed.

Lemma cursors_never_regress_witness :
  (1 < 3)%nat ∧
  cursor Data (run 1 opData opValue (take 1 turns) freshStart) ≤
  cursor Data (run 1 opData opValue (take 3 turns) freshStart).
Proof.
  split; [lia|].
  apply (cursors_never_regress 1 opData opValue Data turns freshStart 1 3). lia.
Defined.

Lemma data_indexer_parent_and_min_height_witness :
  createIndexersHere blockTimestampIndexers =
    Return ([opData; strkData], [opValue; strkValue]) ∧
  opData ∈ [opData; strkData] ∧
  ∃ bti,
    blockTimestampIndexers ≫= (λ m, m !! a_chain (pi_configuration opData)) = Some bti ∧
    pi_parents opData = [bti] ∧
    pi_minHeight opData = toNumber (a_sinceTimestamp (pi_configuration opData)) ∧
    a_type (pi_configuration opData) = preminted ∧
    enabled config (a_chain (pi_configuration opData)).
Proof.
  split; [vm_compute; reflexivity|]. split; [apply list_elem_of_here|].
  apply (data_indexer_parent_and_min_height config peripherals dependencies
           configMapping tt blockTimestampIndexers
           [opData; strkData] [opValue; strkValue] opData);
    [vm_compute; reflexivity|apply list_elem_of_here].
Defined.

(** C5, as stated, fails: a chain listed twice, or an amount listed twice,
    gives two data indexers and two value indexers for one preminted
    amount of an enabled chain. *)
Lemma two_pairs_for_one_position :
  premintedOnEnabledChain configChainTwice op ∧
  createIndexersWith configChainTwice =
    Return ([opData; opData], [opValue; opValue]) ∧
  filter (λ d, pi_configuration d = op) [opData; opData] = [opData; opData] ∧
  premintedOnEnabledChain configAmountTwice op ∧
  createIndexersWith configAmountTwice =
    Return ([opData; opData], [opValue; opValue]) ∧
  filter (λ v, vi_amountConfigs v = [op]) [opValue; opValue] = [opValue; opValue].
Proof.
  assert (∀ cfg, op ∈ amounts cfg → chains cfg !! 0%nat = Some ethereum →
            premintedOnEnabledChain cfg op) as Hon.
  { intros cfg Ha Hcc. split; [done|]. split; [reflexivity|].
    exists ethereum. split; [by eapply list_elem_of_lookup_2|].
    split; [reflexivity|]. by eexists. }
  split; [apply Hon; [apply list_elem_of_here|reflexivity]|].
  split; [vm_compute; reflexivity|]. split; [vm_compute; reflexivity|].
  split; [apply Hon; [apply list_elem_of_here|reflexivity]|].
  split; vm_compute; reflexivity.
Qed.

Lemma pairs_per_preminted_position_witness :
  createIndexersHere blockTimestampIndexers =
    Return ([opData; strkData], [opValue; strkValue]) ∧
  a_type op = preminted ∧
  premintedOnEnabledChain config op ∧
  filter (λ d, pi_configuration d = op) [opData; strkData] = [opData] ∧
  filter (λ v, vi_amountConfigs v = [op]) [opValue; strkValue] = [opValue] ∧
  length (filter (λ d, pi_configuration d = op) [opData; strkData]) = 1%nat ∧
  length (filter (λ v, vi_amountConfigs v = [op]) [opValue; strkValue]) = 1%nat ∧
  pi_minHeight opData = 100 ∧
  ∃ v, [opValue; strkValue] !! 0%nat = Some v ∧ vi_amountConfigs v = [op] ∧
    vi_minHeight v = 100 ∧ vi_maxHeight v = Some 175.
Proof.
  split; [vm_compute; reflexivity|]. split; [reflexivity|].
  split; [exact op_on_enabled_chain|]. do 2 (split; [vm_compute; reflexivity|]).
  destruct (pairs_per_preminted_position peripherals dependencies configMapping tt
              config blockTimestampIndexers
              [opData; strkData] [opValue; strkValue] op)
    as (Hds & Hvs & _ & Hpair); [vm_compute; reflexivity|reflexivity|].
  split; [exact Hds|]. split; [exact Hvs|].
  exact (Hpair 0%nat opData eq_refl eq_refl).
Defined.

Lemma value_identity_key_witness :
  createIndexersHere blockTimestampIndexers =
    Return ([opData; strkData], [opValue; strkValue]) ∧
  (∃ a, premintedOnEnabledChain config a ∧ vi_amountConfigs strkValue = [a] ∧
     vi_dataSource strkValue = a_chain a +:+ "_preminted_" +:+ a_address a) ∧
  vi_dataSource strkValue = "ethereum_preminted_0xbb" ∧
  a_chain op = a_chain strk ∧ a_address op ≠ a_address strk ∧
  vi_dataSource opValue ≠ vi_dataSource strkValue.
Proof.
  assert (a_address op ≠ a_address strk) as Haddr by discriminate.
  destruct (value_identity_key config peripherals dependencies
              configMapping tt blockTimestampIndexers
              [opData; strkData] [opValue; strkValue]) as [Hkey Hdistinct];
    [vm_compute; reflexivity|].
  split; [vm_compute; reflexivity|].
  split; [apply Hkey, list_elem_of_further, list_elem_of_here|].
  split; [reflexivity|]. split; [reflexivity|]. split; [exact Haddr|].
  apply (Hdistinct opValue strkValue op strk);
    [apply list_elem_of_here|apply list_elem_of_further, list_elem_of_here
    |reflexivity|reflexivity|reflexivity|exact Haddr].
Defined.

Lemma data_indexers_start_first_witness :
  initHere blockTimestampIndexers = Return (Some module) ∧
  (start (λ _, true) module).1 =
    [StartCalled (DataRef 0); StartFulfilled (DataRef 0);
     StartCalled (DataRef 1); StartFulfilled (DataRef 1)] ++
    StartCalled (ValueRef 0) ::
    [StartFulfilled (ValueRef 0); StartCalled (ValueRef 1); StartFulfilled (ValueRef 1)] ∧
  StartFulfilled (DataRef 1) ∈
    [StartCalled (DataRef 0); StartFulfilled (DataRef 0);
     StartCalled (DataRef 1); StartFulfilled (DataRef 1)].
Proof.
  split; [vm_compute; reflexivity|]. split; [reflexivity|].
  refine (proj2 (proj1 (data_indexers_start_first config peripherals dependencies
           configMapping tt blockTimestampIndexers module (λ _, true) _ _ 0 _ _) 1%nat _)).
  - vm_compute; reflexivity.
  - reflexivity.
  - simpl; lia.
Defined.

Lemma retry_ends_with_ProviderUnavailable_witness :
  (∀ n, ∃ failure, down n = Unreachable failure) ∧
  result (call policy down) = inl ProviderUnavailable ∧
  attempts (call policy down) = 4%nat ∧
  length (waits (call policy down)) = 3%nat.
Proof.
  assert (∀ n, ∃ failure, down n = Unreachable failure) as Hdown
    by (intros n; exists Timeout; reflexivity).
  split; [exact Hdown|]. exact (retry_ends_with_ProviderUnavailable policy down Hdown).
Defined.

Lemma missing_block_timestamp_indexer_throws_witness :
  ethereum ∈ chains config ∧ is_Some (cc_config ethereum) ∧
  op ∈ amounts config ∧ a_chain op = cc_chain ethereum ∧ a_type op = preminted ∧
  (None : option (gmap string string)) ≫= (λ m, m !! cc_chain ethereum) = None ∧
  createIndexersHere None = Throw (AssertionError assertionMessage) ∧
  initHere None = Throw (AssertionError assertionMessage) ∧
  ∀ m, initHere None ≠ Return (Some m).
Proof.
  assert (ethereum ∈ chains config) as Hcc
    by apply list_elem_of_further, list_elem_of_here.
  assert (op ∈ amounts config) as Ha
    by apply list_elem_of_further, list_elem_of_here.
  split; [exact Hcc|]. split; [by eexists|]. split; [exact Ha|].
  do 3 (split; [reflexivity|]).
  apply (missing_block_timestamp_indexer_throws config peripherals dependencies
           configMapping tt None ethereum op Hcc); [by eexists|exact Ha|reflexivity..].
Defined.



End Example_runs.

Section Example_more.
Import Example.
#[local] Existing Instance units.

Abbreviation createWith cfg btis :=
  (createIndexers cfg peripherals dependencies configMapping tt btis).

Lemma created_in_configuration_order_witness :
  createWith config blockTimestampIndexers =
    Return ([opData; strkData], [opValue; strkValue]) ∧
  pi_configuration <$> [opData; strkData] = plannedAmounts config ∧
  vi_amountConfigs <$> [opValue; strkValue] = (λ a, [a]) <$> plannedAmounts config ∧
  length [opData; strkData] = length [opValue; strkValue].
Proof.
  split; [vm_compute; reflexivity|].
  apply (created_in_configuration_order peripherals dependencies configMapping tt
           config blockTimestampIndexers). vm_compute; reflexivity.
Defined.

Lemma createIndexers_ignores_the_rest_witness :
  filter (λ cc, is_Some (cc_config cc)) (chains configUsed) =
    filter (λ cc, is_Some (cc_config cc)) (chains config) ∧
  filter (λ a, a_type a = preminted) (amounts configUsed) =
    filter (λ a, a_type a = preminted) (amounts config) ∧
  maxTimestampsToAggregateAtOnce configUsed = maxTimestampsToAggregateAtOnce config ∧
  createWith configUsed blockTimestampIndexers =
    createWith config blockTimestampIndexers.
Proof.
  do 3 (split; [reflexivity|]).
  apply (createIndexers_ignores_the_rest peripherals dependencies configMapping tt
           config configUsed blockTimestampIndexers); reflexivity.
Defined.

Lemma needed_lookups_agree (cc : ChainTvlConfig) (a : AmountConfigEntry) :
  cc ∈ chains config → is_Some (cc_config cc) →
  a ∈ amounts config → a_chain a = cc_chain cc → a_type a = preminted →
  moreBlockTimestampIndexers ≫= (λ m, m !! cc_chain cc) =
  blockTimestampIndexers ≫= (λ m, m !! cc_chain cc).
Proof.
  intros Hcc Hsome _ _ _.
  apply elem_of_cons in Hcc as [->|Hcc]; [by destruct Hsome|].
  apply list_elem_of_singleton in Hcc as ->. vm_compute. reflexivity.
Defined.

Lemma createIndexers_reads_needed_lookups_witness :
  (∀ cc a, cc ∈ chains config → is_Some (cc_config cc) →
     a ∈ amounts config → a_chain a = cc_chain cc → a_type a = preminted →
     moreBlockTimestampIndexers ≫= (λ m, m !! cc_chain cc) =
     blockTimestampIndexers ≫= (λ m, m !! cc_chain cc)) ∧
  createWith config moreBlockTimestampIndexers =
    createWith config blockTimestampIndexers.
Proof.
  split; [exact needed_lookups_agree|].
  exact (createIndexers_reads_needed_lookups peripherals dependencies configMapping tt
           config blockTimestampIndexers moreBlockTimestampIndexers
           needed_lookups_agree).
Defined.

Lemma data_indexer_services_witness :
  createWith config blockTimestampIndexers =
    Return ([opData; strkData], [opValue; strkValue]) ∧
  strkData ∈ [opData; strkData] ∧
  ∃ cc cfg, cc ∈ chains config ∧ cc_config cc = Some cfg ∧
    cc_chain cc = a_chain (pi_configuration strkData) ∧
    as_rpcClient (pi_amountService strkData) =
      getClient peripherals (providerUrl cfg) (providerCallsPerMinute cfg)
        (a_chain (pi_configuration strkData)) ∧
    mc_rpcClient (as_multicallClient (pi_amountService strkData)) =
      as_rpcClient (pi_amountService strkData) ∧
    mc_config (as_multicallClient (pi_amountService strkData)) = multicallConfig cfg ∧
    as_logger (pi_amountService strkData) =
      logger_tag (logger dependencies) (a_chain (pi_configuration strkData)).
Proof.
  split; [vm_compute; reflexivity|].
  split; [apply list_elem_of_further, list_elem_of_here|].
  apply (data_indexer_services peripherals dependencies configMapping tt
           config blockTimestampIndexers [opData; strkData] [opValue; strkValue]);
    [vm_compute; reflexivity|apply list_elem_of_further, list_elem_of_here].
Defined.

Lemma value_indexer_prices_its_amount_witness :
  createWith config blockTimestampIndexers =
    Return ([opData; strkData], [opValue; strkValue]) ∧
  strkValue ∈ [opValue; strkValue] ∧
  ∃ a, premintedOnEnabledChain config a ∧
    vi_amountConfigs strkValue = [a] ∧
    vi_priceConfigs strkValue = [getPriceConfigFromAmountConfig configMapping a] ∧
    vi_project strkValue = a_project a ∧
    vi_maxTimestampsToProcessAtOnce strkValue = maxTimestampsToAggregateAtOnce config.
Proof.
  split; [vm_compute; reflexivity|].
  split; [apply list_elem_of_further, list_elem_of_here|].
  apply (value_indexer_prices_its_amount peripherals dependencies configMapping tt
           config blockTimestampIndexers [opData; strkData] [opValue; strkValue]);
    [vm_compute; reflexivity|apply list_elem_of_further, list_elem_of_here].
Defined.

Lemma createIndexers_app_witness :
  chains config = chains configFirst ++ chains configSecond ∧
  amounts configFirst = amounts config ∧ amounts configSecond = amounts config ∧
  maxTimestampsToAggregateAtOnce configFirst = maxTimestampsToAggregateAtOnce config ∧
  maxTimestampsToAggregateAtOnce configSecond = maxTimestampsToAggregateAtOnce config ∧
  createWith config blockTimestampIndexers =
    r1 ← createWith configFirst blockTimestampIndexers;
    r2 ← createWith configSecond blockTimestampIndexers;
    Return (r1.1 ++ r2.1, r1.2 ++ r2.2).
Proof.
  do 5 (split; [reflexivity|]).
  apply (createIndexers_app peripherals dependencies configMapping tt
           config configFirst configSecond blockTimestampIndexers); reflexivity.
Defined.

Lemma createIndexers_chain_order_witness :
  chains configSwapped ≡ₚ chains config ∧ amounts configSwapped = amounts config ∧
  maxTimestampsToAggregateAtOnce configSwapped = maxTimestampsToAggregateAtOnce config ∧
  match createWith config blockTimestampIndexers,
        createWith configSwapped blockTimestampIndexers with
  | Return (ds, vs), Return (ds', vs') =>
    ds' ≡ₚ ds ∧ vs' ≡ₚ vs ∧ zip ds' vs' ≡ₚ zip ds vs
  | Throw e, Throw e' => e' = e
  | _, _ => False
  end.
Proof.
  assert (chains configSwapped ≡ₚ chains config) as Hperm by apply Permutation_swap.
  split; [exact Hperm|]. do 2 (split; [reflexivity|]).
  apply (createIndexers_chain_order peripherals dependencies configMapping tt
           config configSwapped blockTimestampIndexers Hperm); reflexivity.
Defined.

Lemma module_arrays_witness :
  initPremintedModule config peripherals dependencies configMapping tt
    blockTimestampIndexers = Return (Some module) ∧
  length (valueIndexers module) = length (dataIndexers module) ∧
  (0 < length (dataIndexers module))%nat.
Proof.
  split; [vm_compute; reflexivity|].
  apply (module_arrays peripherals dependencies configMapping tt
           config blockTimestampIndexers module). vm_compute; reflexivity.
Defined.

Lemma dataSourceOf_inj_witness :
  hasUnderscore "ethereum" = false ∧ hasUnderscore "ethereum" = false ∧
  dataSourceOf "ethereum" "0xaa" = dataSourceOf "ethereum" "0xaa" ∧
  "ethereum" = "ethereum" ∧ "0xaa" = "0xaa".
Proof.
  do 3 (split; [reflexivity|]).
  apply (dataSourceOf_inj "ethereum" "ethereum" "0xaa" "0xaa"); reflexivity.
Defined.

Lemma chain_names_plain (cc : ChainTvlConfig) :
  cc ∈ chains config → hasUnderscore (cc_chain cc) = false.
Proof.
  intros [->|Hcc]%elem_of_cons; [reflexivity|].
  apply list_elem_of_singleton in Hcc as ->. reflexivity.
Defined.

Lemma data_sources_distinct_witness :
  (∀ cc, cc ∈ chains config → hasUnderscore (cc_chain cc) = false) ∧
  NoDup (cc_chain <$> chains config) ∧
  NoDup ((λ a, (a_chain a, a_address a)) <$>
           filter (λ a, a_type a = preminted) (amounts config)) ∧
  createWith config blockTimestampIndexers =
    Return ([opData; strkData], [opValue; strkValue]) ∧
  NoDup (vi_dataSource <$> [opValue; strkValue]).
Proof.
  assert (NoDup (cc_chain <$> chains config)) as Hnames
    by (apply (bool_decide_unpack _); vm_compute; exact I).
  assert (NoDup ((λ a, (a_chain a, a_address a)) <$>
            filter (λ a, a_type a = preminted) (amounts config))) as Hkeys
    by (apply (bool_decide_unpack _); vm_compute; exact I).
  split; [exact chain_names_plain|]. split; [exact Hnames|]. split; [exact Hkeys|].
  split; [vm_compute; reflexivity|].
  apply (data_sources_distinct peripherals dependencies configMapping tt
           config blockTimestampIndexers [opData; strkData] [opValue; strkValue]
           chain_names_plain Hnames Hkeys).
  vm_compute; reflexivity.
Defined.

End Example_more.
